(** * SimpleDataTool: the query layer over disasters, claims and agents

    A shallow embedding of [src/helpers/getDisasterCounts.js] (the index
    builder [getDisasterCounts] and the class [SimpleDataTool]) together
    with the properties of its queries.

    Conventions of the embedding.
    - A JavaScript string is a [string]: a sequence of code units, here
      of 8 bits, compared with [<] unit by unit ([String.compare]);
      [localeCompare] on the names of months is that order too.
    - A plain object used as a dictionary with string keys is an [obj]: the
      list of its own properties in insertion order.  That is what the code
      sees for keys that are neither names of members of [Object.prototype]
      ([inherited]) nor array indices ([index_like]): a read of an
      inherited name finds the inherited member, and [for ... in] and
      [Object.keys] list array indices first.  The theorems whose truth
      depends on it say so in a hypothesis on the keys.
    - The module-level collections [sfcc2023Agents], [sfcc2023Claims] and
      [sfcc2023Disasters] are section variables, so every query is a
      function of the collections it reads.
    - A number is an IEEE 754 binary64 value, a [spec_float] of the
      Standard Library with precision 53 and [emax] 1024; ids, counts and
      severity ratings, which the code only compares and counts, are
      integers.
    - [null] is [None]. *)

From Stdlib Require Import ZArith QArith Qabs List String Ascii Bool Lia.
From Stdlib Require Import Sorting.Sorted Sorting.Permutation.
From Stdlib Require Import Floats.SpecFloat.
From stdpp Require Import gmap pretty.
Import ListNotations.

Local Open Scope string_scope.
Local Open Scope list_scope.
Local Open Scope nat_scope.

(** ** Objects with string keys, in insertion order *)

Definition obj (V : Type) : Type := list (string * V).

(** [o[k]] for a key that is not the name of a member of
    [Object.prototype]: the value of the own property [k], [None] for
    [undefined]. *)
Fixpoint get {V} (o : obj V) (k : string) : option V :=
  match o with
  | [] => None
  | (k', v) :: o' => if String.eqb k' k then Some v else get o' k
  end.

(** [o[k] = v]: an existing property keeps its place, a new one goes last. *)
Fixpoint put {V} (o : obj V) (k : string) (v : V) : obj V :=
  match o with
  | [] => [(k, v)]
  | (k', v') :: o' =>
      if String.eqb k' k then (k', v) :: o' else (k', v') :: put o' k v
  end.

(** [Object.keys(o)], and the keys [for ... in] goes through, for an
    object without array indices among its keys: the own keys in insertion
    order. *)
Definition keys {V} (o : obj V) : list string := List.map fst o.

(** ** Numbers *)

Module Number.

Definition prec : Z := 53.
Definition emax : Z := 1024.

Definition NaN : spec_float := S754_nan.
Definition zero : spec_float := S754_zero false.

Definition add : spec_float -> spec_float -> spec_float := SFadd prec emax.
Definition sub : spec_float -> spec_float -> spec_float := SFsub prec emax.
Definition mul : spec_float -> spec_float -> spec_float := SFmul prec emax.
Definition div : spec_float -> spec_float -> spec_float := SFdiv prec emax.

(** The number an integer converts to. *)
Definition of_Z (z : Z) : spec_float := binary_normalize prec emax z 0 false.
Definition of_nat (n : nat) : spec_float := of_Z (Z.of_nat n).

(** [Math.PI], 0x400921FB54442D18. *)
Definition PI : spec_float := S754_finite false 0x1921FB54442D18 (-51).

(** [x ** 2], taken as the correctly rounded square (it is exact whenever
    the square is a binary64 value, as for whole radii). *)
Definition square (x : spec_float) : spec_float := mul x x.

(** [!x]: true for [+0], [-0] and [NaN]. *)
Definition falsy (x : spec_float) : bool :=
  match x with
  | S754_zero _ | S754_nan => true
  | _ => false
  end.

(** The binary64 value nearest to [num / den] (ties to even), with sign
    [negative]: what reading a decimal numeral gives. *)
Definition nearest (negative : bool) (num den : positive) : spec_float :=
  let '(q, e, l) := SFdiv_core_binary prec emax (Zpos num) 0 (Zpos den) 0 in
  binary_round_aux prec emax negative q e l.

(** The number denoted by the decimal numeral of the integer [n] with
    its last [digits] digits after the point, and a minus sign in front
    if [negative]. *)
Definition decimal (negative : bool) (n : Z) (digits : nat) : spec_float :=
  match n with
  | Zpos p => nearest negative p (Z.to_pos (10 ^ Z.of_nat digits))
  | _ => S754_zero negative
  end.

(** The number denoted by the literal [n / 10^digits], for [0 <= n]. *)
Definition of_decimal (n : Z) (digits : nat) : spec_float :=
  decimal false n digits.

(** The magnitude of a finite number [m * 2^e] as the fraction
    [numerator m e / denominator e]. *)
Definition numerator (m : positive) (e : Z) : Z := Zpos m * 2 ^ Z.max 0 e.
Definition denominator (e : Z) : Z := 2 ^ Z.max 0 (- e).

(** The rational value of a zero or finite number (0 for the others). *)
Definition value (x : spec_float) : Q :=
  match x with
  | S754_finite s m e =>
      Qmake (cond_Zopp s (numerator m e)) (Z.to_pos (denominator e))
  | _ => 0%Q
  end.

(** The text [Number.prototype.toFixed] produces, by its shape. *)
Inductive numeral : Type :=
  | NumNaN
  | NumInfinity (negative : bool)
  | NumExponential (x : spec_float)
  | NumFixed (negative : bool) (n : Z) (digits : nat).

(** [x.toFixed(digits)]: ["NaN"] and ["Infinity"] for the non-finite
    numbers; the exponential notation of [x] from [10^21] on; otherwise
    the integer [n] for which [n / 10^digits] is nearest to the magnitude
    of [x], the larger one if there are two, written with [digits]
    decimals and the sign of [x]. *)
Definition toFixed (digits : nat) (x : spec_float) : numeral :=
  match x with
  | S754_nan => NumNaN
  | S754_infinity s => NumInfinity s
  | S754_zero _ => NumFixed false 0 digits
  | S754_finite s m e =>
      let num := numerator m e in
      let den := denominator e in
      if (10 ^ 21 * den <=? num)%Z then NumExponential x
      else NumFixed s ((2 * num * 10 ^ Z.of_nat digits + den) / (2 * den))
                    digits
  end.

(** [parseFloat] of such a text. *)
Definition parseFloat (t : numeral) : spec_float :=
  match t with
  | NumNaN => S754_nan
  | NumInfinity s => S754_infinity s
  | NumExponential x => x
  | NumFixed s n digits => decimal s n digits
  end.

(** [parseFloat(x.toFixed(digits))]. *)
Definition round_to (digits : nat) (x : spec_float) : spec_float :=
  parseFloat (toFixed digits x).

End Number.

(** ** The data model *)

(** What the code reads of a [Date]: [getMonth()], from 0, and
    [getFullYear()]. *)
Record Date : Type := mkDate
  { getMonth : nat;
    getFullYear : Z }.

Module Disaster.
Record t : Type := mk
  { id : Z;
    state : string;
    declared_date : Date;
    radius_miles : spec_float }.
End Disaster.

Module Claim.
Record t : Type := mk
  { id : Z;
    disaster_id : Z;
    agent_assigned_id : Z;
    status : string;
    estimate_cost : spec_float;
    severity_rating : Z }.
End Claim.

(** [secondary_language] is [None] when the property is missing. *)
Module Agent.
Record t : Type := mk
  { id : Z;
    state : string;
    secondary_language : option string }.
End Agent.

(** ** Counting into an object *)

(** [!o[k]] for an object of counts: true for [undefined] and for [0]. *)
Definition not_count (v : option nat) : bool :=
  match v with
  | None => true
  | Some 0 => true
  | Some (S _) => false
  end.

(** [o[k]++] on a property that holds a count. *)
Definition incr (o : obj nat) (k : string) : obj nat :=
  match get o k with
  | Some n => put o k (S n)
  | None => o
  end.

(** [if (!o[k]) { o[k] = 0; } o[k]++;] *)
Definition count_up (o : obj nat) (k : string) : obj nat :=
  let o1 := if not_count (get o k) then put o k 0 else o in
  incr o1 k.

(** ** The disaster-count index *)

Definition getDisasterCounts (sfcc2023Disasters : list Disaster.t) : obj nat :=
  fold_left
    (fun state_disaster_counts disaster =>
       count_up state_disaster_counts (Disaster.state disaster))
    sfcc2023Disasters [].

(** ** The queries *)

(** [Infinity] or a count, for [min_disaster_counter]. *)
Inductive bound : Type :=
  | Infinity
  | Finite (n : nat).

Definition below (c : nat) (b : bound) : bool :=
  match b with
  | Infinity => true
  | Finite n => Nat.ltb c n
  end.

Definition same (c : nat) (b : bound) : bool :=
  match b with
  | Infinity => false
  | Finite n => Nat.eqb c n
  end.

(** The loop state of [getMostSpokenAgentLanguageByState]. *)
Record language_loop : Type := mkLoop
  { language_frequency : obj nat;
    max_language_counter : nat;
    most_spoken_language : string }.

(** [!o[k]] for an object of numbers. *)
Definition not_number (v : option spec_float) : bool :=
  match v with
  | None => true
  | Some x => Number.falsy x
  end.

(** [if (!o[k]) { o[k] = 0; } o[k] += cost;] *)
Definition add_up (o : obj spec_float) (k : string) (cost : spec_float)
    : obj spec_float :=
  let o1 := if not_number (get o k) then put o k Number.zero else o in
  match get o1 k with
  | Some v => put o1 k (Number.add v cost)
  | None => o1
  end.

(** [toLocaleString("default", { month: "long" })] of a date in the month
    numbered [m] from 0, in English. *)
Definition month_name (m : nat) : string :=
  nth (m mod 12)
    [ "January"; "February"; "March"; "April"; "May"; "June"; "July";
      "August"; "September"; "October"; "November"; "December" ] "".

(** The value of a property read as a number: [undefined] gives [NaN]. *)
Definition to_number (v : option spec_float) : spec_float :=
  match v with
  | Some x => x
  | None => Number.NaN
  end.

(** The comparator of the sort, by the sign of what it returns:
    [costs[b] - costs[a] || a.localeCompare(b)]. *)
Definition compare_months (costs : obj spec_float) (a b : string) : comparison :=
  let d := Number.sub (to_number (get costs b)) (to_number (get costs a)) in
  if Number.falsy d then String.compare a b
  else match d with
       | S754_finite true _ _ | S754_infinity true => Lt
       | _ => Gt
       end.

(** [Array.prototype.sort] is a stable sort; here by insertion.  Under a
    comparator that orders the keys the result is the same for any sort. *)
Fixpoint insert (cmp : string -> string -> comparison) (x : string)
    (l : list string) : list string :=
  match l with
  | [] => [x]
  | y :: l' =>
      match cmp x y with
      | Gt => y :: insert cmp x l'
      | _ => x :: l
      end
  end.

Definition sort (cmp : string -> string -> comparison) (l : list string)
    : list string :=
  fold_right (insert cmp) [] l.

Section SimpleDataTool.

Variable sfcc2023Agents : list Agent.t.
Variable sfcc2023Claims : list Claim.t.
Variable sfcc2023Disasters : list Disaster.t.

Definition disasterCounts : obj nat := getDisasterCounts sfcc2023Disasters.

Definition getNumDisastersForState (state : string) : nat :=
  length (List.filter
            (fun disaster => String.eqb (Disaster.state disaster) state)
            sfcc2023Disasters).

(** [reduce((acc, claim) => acc + claim.estimate_cost, 0)]. *)
Definition total_cost (claims : list Claim.t) : spec_float :=
  fold_left (fun acc claim => Number.add acc (Claim.estimate_cost claim))
    claims Number.zero.

Definition getTotalClaimCostForDisaster (disasterId : Z)
    : option spec_float :=
  let related_claims :=
    List.filter (fun claim => Z.eqb (Claim.disaster_id claim) disasterId)
      sfcc2023Claims in
  if Nat.eqb (length related_claims) 0 then None
  else Some (Number.round_to 2 (total_cost related_claims)).

(** One turn of the [for ... in] loop of [getStateWithMostDisasters]; the
    loop state is [(max_disaster_counter, state_with_most_disasters)]. *)
Definition most_step (acc : nat * string) (entry : string * nat)
    : nat * string :=
  let '(max_disaster_counter, state_with_most_disasters) := acc in
  let '(state, count) := entry in
  if Nat.ltb max_disaster_counter count then (count, state)
  else if Nat.eqb count max_disaster_counter
          && String.ltb state state_with_most_disasters
       then (max_disaster_counter, state)
       else acc.

Definition getStateWithMostDisasters : string :=
  snd (fold_left most_step disasterCounts (0, "")).

(** One turn of the loop of [getStateWithLeastDisasters]. *)
Definition least_step (acc : bound * string) (entry : string * nat)
    : bound * string :=
  let '(min_disaster_counter, state_with_least_disasters) := acc in
  let '(state, count) := entry in
  if below count min_disaster_counter then (Finite count, state)
  else if same count min_disaster_counter
          && String.ltb state state_with_least_disasters
       then (min_disaster_counter, state)
       else acc.

Definition getStateWithLeastDisasters : string :=
  snd (fold_left least_step disasterCounts (Infinity, "")).

(** [spoken_language && spoken_language != "English"]. *)
Definition spoken (language : option string) : option string :=
  match language with
  | Some l =>
      if negb (String.eqb l "") && negb (String.eqb l "English")
      then Some l else None
  | None => None
  end.

(** The body of the [forEach] callback of
    [getMostSpokenAgentLanguageByState]. *)
Definition tally_agent (loop : language_loop) (agent : Agent.t)
    : language_loop :=
  match spoken (Agent.secondary_language agent) with
  | Some spoken_language =>
      let frequency := count_up (language_frequency loop) spoken_language in
      match get frequency spoken_language with
      | Some count =>
          if Nat.ltb (max_language_counter loop) count
          then mkLoop frequency count spoken_language
          else if Nat.eqb count (max_language_counter loop)
                  && String.ltb spoken_language (most_spoken_language loop)
               then mkLoop frequency (max_language_counter loop)
                      spoken_language
               else mkLoop frequency (max_language_counter loop)
                      (most_spoken_language loop)
      | None => mkLoop frequency (max_language_counter loop)
                  (most_spoken_language loop)
      end
  | None => loop
  end.

Definition getMostSpokenAgentLanguageByState (state : string) : string :=
  let agents :=
    List.filter (fun agent => String.eqb (Agent.state agent) state)
      sfcc2023Agents in
  if Nat.eqb (length agents) 0 then ""
  else most_spoken_language (fold_left tally_agent agents (mkLoop [] 0 "")).

Definition getNumOfOpenClaimsForAgentAndSeverity (agentId : Z)
    (minSeverityRating : Z) : option Z :=
  if (10 <? minSeverityRating)%Z || (minSeverityRating <=? 0)%Z
  then Some (-1)%Z
  else
    let claims :=
      List.filter (fun claim => Z.eqb (Claim.agent_assigned_id claim) agentId)
        sfcc2023Claims in
    if Nat.eqb (length claims) 0 then None
    else
      let open_claims :=
        List.filter
          (fun claim => negb (String.eqb (Claim.status claim) "Closed"))
          claims in
      Some (fold_left
              (fun acc claim =>
                 if (minSeverityRating <=? Claim.severity_rating claim)%Z
                 then (acc + 1)%Z else acc)
              open_claims 0%Z).

Definition buildMapOfAgentsToTotalClaimCost : gmap Z spec_float :=
  fold_left
    (fun agent_to_claim_cost agent =>
       let claims :=
         List.filter
           (fun claim =>
              Z.eqb (Claim.agent_assigned_id claim) (Agent.id agent))
           sfcc2023Claims in
       <[Agent.id agent := Number.round_to 2 (total_cost claims)]>
         agent_to_claim_cost)
    sfcc2023Agents ∅.

Definition calculateDisasterClaimDensity (disasterId : Z)
    : option spec_float :=
  let claims_from_disaster :=
    List.filter (fun claim => Z.eqb (Claim.disaster_id claim) disasterId)
      sfcc2023Claims in
  if Nat.eqb (length claims_from_disaster) 0 then None
  else
    let radius_of_disaster :=
      option_map Disaster.radius_miles
        (List.find (fun disaster => Z.eqb (Disaster.id disaster) disasterId)
           sfcc2023Disasters) in
    let disaster_claim_density :=
      Number.div (Number.of_nat (length claims_from_disaster))
        (Number.mul Number.PI (Number.square (to_number radius_of_disaster)))
    in
    Some (Number.round_to 5 disaster_claim_density).

(** [`${month_name} ${year}`] of the declared date of a disaster. *)
Definition month_year (disaster : Disaster.t) : string :=
  month_name (getMonth (Disaster.declared_date disaster))
  +:+ " " +:+ pretty (getFullYear (Disaster.declared_date disaster)).

(** The body of the [forEach] callback of
    [getTopThreeMonthsWithHighestNumOfClaimsDesc]. *)
Definition add_claim (month_claim_costs : obj spec_float) (claim : Claim.t)
    : obj spec_float :=
  match List.find
          (fun d => Z.eqb (Disaster.id d) (Claim.disaster_id claim))
          sfcc2023Disasters with
  | None => month_claim_costs
  | Some disaster =>
      add_up month_claim_costs (month_year disaster)
        (Claim.estimate_cost claim)
  end.

Definition month_claim_costs : obj spec_float :=
  fold_left add_claim sfcc2023Claims [].

Definition getTopThreeMonthsWithHighestNumOfClaimsDesc : list string :=
  firstn 3 (sort (compare_months month_claim_costs) (keys month_claim_costs)).

End SimpleDataTool.

(** ** Specification vocabulary *)

(** The names of the members of [Object.prototype], which every plain
    object inherits. *)
Definition prototype_members : list string :=
  [ "constructor"; "hasOwnProperty"; "isPrototypeOf"; "propertyIsEnumerable";
    "toLocaleString"; "toString"; "valueOf"; "__proto__";
    "__defineGetter__"; "__defineSetter__"; "__lookupGetter__";
    "__lookupSetter__" ].

(** The key is the name of an inherited member: [o[k]] is not [undefined]
    for it although [o] has no such property of its own. *)
Definition inherited (k : string) : bool :=
  existsb (String.eqb k) prototype_members.

Definition is_digit (c : ascii) : bool :=
  Nat.leb 48 (nat_of_ascii c) && Nat.leb (nat_of_ascii c) 57.

(** The key is made of decimal digits only, as every array index is. *)
Definition index_like (k : string) : bool :=
  negb (String.eqb k "") && forallb is_digit (list_ascii_of_string k).

(** A key on which an [obj] is what the code sees. *)
Definition plain_key (k : string) : bool :=
  negb (inherited k) && negb (index_like k).

(** The sum of a list of costs from the left, starting at [acc]. *)
Fixpoint sum_after (acc : spec_float) (costs : list spec_float)
    : spec_float :=
  match costs with
  | [] => acc
  | cost :: rest => sum_after (Number.add acc cost) rest
  end.

(** [0 + c1 + c2 + ...], each addition a binary64 addition. *)
Definition sum_of (costs : list spec_float) : spec_float :=
  sum_after Number.zero costs.

(** [a] is not after [b]: what "lexicographically smallest" asks of [a]. *)
Definition lex_le (a b : string) : Prop := String.ltb b a = false.

(** What the loop of [getStateWithMostDisasters] knows after the entries
    [seen]: nothing yet, or the best entry among them. *)
Definition most_inv (seen : list (string * nat)) (acc : nat * string) : Prop :=
  (seen = [] /\ acc = (0, "")) \/
  (In (snd acc, fst acc) seen /\
   forall t c, In (t, c) seen ->
     c <= fst acc /\ (c = fst acc -> lex_le (snd acc) t)).

(** The same for [getStateWithLeastDisasters], whose counter starts at
    [Infinity]. *)
Definition least_inv (seen : list (string * nat)) (acc : bound * string) : Prop :=
  (seen = [] /\ acc = (Infinity, "")) \/
  (exists m, fst acc = Finite m /\ In (snd acc, m) seen /\
   forall t c, In (t, c) seen ->
     m <= c /\ (c = m -> lex_le (snd acc) t)).

(** [n] is the integer nearest to the magnitude of [x] scaled by
    [10^digits], the upper one of two that are as near. *)
Definition half_up (digits : nat) (x : spec_float) (n : Z) : Prop :=
  (inject_Z n - (1 # 2) <= Qabs (Number.value x) * inject_Z (10 ^ Z.of_nat digits)
   /\ Qabs (Number.value x) * inject_Z (10 ^ Z.of_nat digits) < inject_Z n + (1 # 2))%Q.

(** [y] is [x] rounded half up to [digits] decimals: a zero or finite [x]
    below [10^21] gives the number that the decimal numeral of the nearest
    multiple of [10^-digits] denotes, with the sign of [x]; every other
    number is left as it is. *)
Definition rounded (digits : nat) (x y : spec_float) : Prop :=
  match x with
  | S754_nan | S754_infinity _ => y = x
  | S754_zero _ => y = Number.zero
  | S754_finite s _ _ =>
      ((inject_Z (10 ^ 21) <= Qabs (Number.value x))%Q -> y = x)
      /\ ((Qabs (Number.value x) < inject_Z (10 ^ 21))%Q ->
          exists n, half_up digits x n /\ y = Number.decimal s n digits)
  end.

(** The number of elements of a list that pass a test. *)
Definition count_if {A} (p : A -> bool) (l : list A) : nat :=
  length (List.filter p l).

(** The claim is assigned to the agent, is not closed, and is at least as
    severe as asked. *)
Definition open_and_severe (agentId minSeverityRating : Z) (claim : Claim.t)
    : bool :=
  Z.eqb (Claim.agent_assigned_id claim) agentId
  && negb (String.eqb (Claim.status claim) "Closed")
  && (minSeverityRating <=? Claim.severity_rating claim)%Z.

(** The agent is of the state and has the secondary language. *)
Definition speaks (state language : string) (agent : Agent.t) : bool :=
  String.eqb (Agent.state agent) state
  && match Agent.secondary_language agent with
     | Some l => String.eqb l language
     | None => false
     end.

(** A secondary language that is tallied: present, not empty, not English. *)
Definition tallied (language : option string) : Prop :=
  exists l, language = Some l /\ l <> "" /\ l <> "English".

(** The agents among [agents] that the loop counts for [language]. *)
Definition counted (language : string) (agents : list Agent.t) : nat :=
  count_if (fun agent =>
              match spoken (Agent.secondary_language agent) with
              | Some l => String.eqb l language
              | None => false
              end) agents.

(** What the loop of [getMostSpokenAgentLanguageByState] knows after the
    agents [seen]. *)
Definition language_inv (seen : list Agent.t) (loop : language_loop) : Prop :=
  (forall l, get (language_frequency loop) l =
             match counted l seen with 0 => None | S n => Some (S n) end)
  /\ ((max_language_counter loop = 0 /\ most_spoken_language loop = ""
       /\ forall l, counted l seen = 0)
      \/ (0 < max_language_counter loop
          /\ counted (most_spoken_language loop) seen = max_language_counter loop
          /\ forall l, counted l seen <= max_language_counter loop
                       /\ (counted l seen = max_language_counter loop ->
                           lex_le (most_spoken_language loop) l))).

Local Open Scope Z_scope.

(** The least exponent of a binary64 number. *)
Definition emin64 : Z := SpecFloat.emin Number.prec Number.emax.

(** A sum of costs: not [NaN], not negative, not [-0]. *)
Definition sum_ok (x : spec_float) : Prop :=
  match x with
  | S754_zero s | S754_infinity s => s = false
  | S754_nan => False
  | S754_finite s m e => s = false /\ emin64 <= e
  end.

(** A cost that can be added to a sum: a valid number, not [NaN], not
    negative. *)
Definition cost_ok (x : spec_float) : Prop :=
  valid_binary Number.prec Number.emax x = true
  /\ match x with
     | S754_zero _ => True
     | S754_infinity s | S754_finite s _ _ => s = false
     | S754_nan => False
     end.

(** The comparison of two sums of costs by value; [Infinity] is above
    every finite sum. *)
Definition cost_compare (x y : spec_float) : comparison :=
  match x, y with
  | S754_infinity false, S754_infinity false => Eq
  | S754_infinity false, _ => Gt
  | _, S754_infinity false => Lt
  | _, _ => (Number.value x ?= Number.value y)%Q
  end.

(** The sign of a number as a comparator result: [Eq] when it is falsy. *)
Definition sign_of (d : spec_float) : comparison :=
  if Number.falsy d then Eq
  else match d with
       | S754_finite true _ _ | S754_infinity true => Lt
       | _ => Gt
       end.

Local Close Scope Z_scope.

(** The claim is of a loaded disaster declared in the month [key]. *)
Definition in_month (disasters : list Disaster.t) (key : string)
    (claim : Claim.t) : bool :=
  match List.find (fun d => Z.eqb (Disaster.id d) (Claim.disaster_id claim))
          disasters with
  | Some disaster => String.eqb (month_year disaster) key
  | None => false
  end.

(** [cmp] orders the elements of [l]: it is antisymmetric and "not after"
    is transitive on them. *)
Definition orders (cmp : string -> string -> comparison) (l : list string)
    : Prop :=
  (forall a b, In a l -> In b l -> cmp a b = CompOpp (cmp b a))
  /\ (forall a b c, In a l -> In b l -> In c l ->
        cmp a b <> Gt -> cmp b c <> Gt -> cmp a c <> Gt).

(** ** Vocabulary of the proofs *)

Definition is_infinity (x : spec_float) : bool :=
  match x with
  | S754_infinity _ => true
  | _ => false
  end.

(** The month [a] is not after the month [b] in the ranking: it has the
    greater total cost, or the same and a name that is not after. *)
Definition month_before (costs : obj spec_float) (a b : string) : Prop :=
  exists x y, get costs a = Some x /\ get costs b = Some y
    /\ (cost_compare x y = Gt \/ (cost_compare x y = Eq /\ lex_le a b)).

(** ** Sample collections *)

Definition sample_disasters : list Disaster.t :=
  [ Disaster.mk 1 "Texas" (mkDate 0 2023) (Number.of_Z 10);
    Disaster.mk 2 "Ohio" (mkDate 4 2023) (Number.of_Z 25);
    Disaster.mk 3 "Texas" (mkDate 4 2023) (Number.of_Z 7);
    Disaster.mk 4 "Ohio" (mkDate 11 2022) (Number.of_Z 3);
    Disaster.mk 5 "Utah" (mkDate 5 2023) (Number.of_Z 40);
    Disaster.mk 6 "Iowa" (mkDate 6 2023) (Number.of_Z 12) ].


Definition sample_agents : list Agent.t :=
  [ Agent.mk 7 "Texas" (Some "Spanish");
    Agent.mk 8 "Ohio" (Some "French");
    Agent.mk 9 "Texas" (Some "Arabic");
    Agent.mk 10 "Texas" (Some "English");
    Agent.mk 11 "Texas" (Some "Arabic");
    Agent.mk 12 "Texas" (Some "Spanish");
    Agent.mk 13 "Utah" None;
    Agent.mk 14 "Utah" (Some "") ].

Definition sample_claims : list Claim.t :=
  [ Claim.mk 1 1 7 "Closed" (Number.of_decimal 10005 3) 9;
    Claim.mk 2 1 7 "Received" (Number.of_Z 5) 4;
    Claim.mk 3 2 8 "Closed" (Number.of_decimal 2505 1) 8;
    Claim.mk 4 3 9 "In Review" (Number.of_decimal 1999 2) 6;
    Claim.mk 5 99 9 "Received" (Number.of_Z 1000) 2;
    Claim.mk 6 5 7 "In Review" (Number.of_decimal 2505 1) 7;
    Claim.mk 7 6 50 "Received" (Number.of_Z 75) 10;
    Claim.mk 8 4 50 "Closed" (Number.of_decimal 2505 1) 1 ].

Definition density_claims : list Claim.t :=
  [ Claim.mk 1 1 7 "Closed" (Number.of_Z 100) 9;
    Claim.mk 2 1 7 "Received" (Number.of_Z 100) 4;
    Claim.mk 3 2 8 "Closed" (Number.of_Z 100) 8;
    Claim.mk 4 1 9 "In Review" (Number.of_Z 100) 6;
    Claim.mk 5 1 9 "Received" (Number.of_Z 100) 2;
    Claim.mk 6 99 9 "Received" (Number.of_Z 100) 2 ].

(** * Further queries and vocabulary *)

(** ** The queries on closed claims and on claim handlers *)

Section ClaimHandlers.

(** The claim records above leave out the property
    [claim_handler_assigned_id], which only the two queries on handlers
    read; it is the projection below. *)
Variable claim_handler_assigned_id : Claim.t -> Z.
Variable sfcc2023Claims : list Claim.t.

Definition getNumClosedClaims : nat :=
  length (List.filter
            (fun claim => String.eqb (Claim.status claim) "Closed")
            sfcc2023Claims).

Definition getNumClaimsForClaimHandlerId (claimHandlerId : Z) : nat :=
  length (List.filter
            (fun claim => Z.eqb (claim_handler_assigned_id claim) claimHandlerId)
            sfcc2023Claims).


End ClaimHandlers.

(** ** Vocabulary of the further properties *)

(** The sum of the counts an object holds. *)
Definition sum_counts (o : obj nat) : nat := list_sum (List.map snd o).

(** The elements of a list, each at its first place. *)
Definition first_places (l : list string) : list string :=
  rev (nodup String.string_dec (rev l)).

(** The claim is of one of the disasters. *)
Definition of_loaded_disaster (disasters : list Disaster.t) (claim : Claim.t)
    : bool :=
  existsb (fun d => Z.eqb (Disaster.id d) (Claim.disaster_id claim)) disasters.

(** The claim is assigned to one of the agents. *)
Definition of_loaded_agent (agents : list Agent.t) (claim : Claim.t) : bool :=
  existsb (fun a => Z.eqb (Agent.id a) (Claim.agent_assigned_id claim)) agents.

(** The handler of a sample claim. *)
Definition sample_handler (claim : Claim.t) : Z :=
  if (Claim.id claim <=? 3)%Z then 100%Z else 200%Z.

(** The number is not [NaN] and has no minus sign. *)
Definition not_negative (y : spec_float) : Prop :=
  match y with
  | S754_nan => False
  | S754_zero s | S754_infinity s | S754_finite s _ _ => s = false
  end.


(** * Properties *)

(** ** The order on strings *)

Lemma ascii_compare_lt_trans (a b c : ascii) :
  Ascii.compare a b = Lt -> Ascii.compare b c = Lt -> Ascii.compare a c = Lt.
Proof.
  unfold Ascii.compare. rewrite !N.compare_lt_iff. lia.
Qed.

Lemma string_compare_lt_trans (a b c : string) :
  String.compare a b = Lt -> String.compare b c = Lt -> String.compare a c = Lt.
Proof.
  revert b c. induction a as [|x a IH]; intros [|y b] [|z c]; simpl; try easy.
  destruct (Ascii.compare x y) eqn:Exy; try easy;
    destruct (Ascii.compare y z) eqn:Eyz; try easy; intros H1 H2.
  - apply Ascii.compare_eq_iff in Exy, Eyz. subst.
    assert (Ascii.compare z z = Eq) as ->.
    { unfold Ascii.compare. apply N.compare_refl. }
    eauto.
  - apply Ascii.compare_eq_iff in Exy. subst. now rewrite Eyz.
  - apply Ascii.compare_eq_iff in Eyz. subst. now rewrite Exy.
  - now rewrite (ascii_compare_lt_trans _ _ _ Exy Eyz).
Qed.

Lemma string_compare_refl (a : string) : String.compare a a = Eq.
Proof.
  induction a as [|x a IH]; simpl; [reflexivity|].
  assert (Ascii.compare x x = Eq) as ->; [|exact IH].
  unfold Ascii.compare. apply N.compare_refl.
Qed.

Lemma string_ltb_irrefl (a : string) : String.ltb a a = false.
Proof. unfold String.ltb. now rewrite string_compare_refl. Qed.


Lemma lex_le_refl a : lex_le a a.
Proof. apply string_ltb_irrefl. Qed.

Lemma lex_lt_le a b : String.ltb a b = true -> lex_le a b.
Proof.
  unfold lex_le, String.ltb. rewrite (String.compare_antisym b a).
  destruct (String.compare a b); simpl; congruence.
Qed.

Lemma lex_lt_le_trans a b c : String.ltb a b = true -> lex_le b c -> lex_le a c.
Proof.
  unfold lex_le, String.ltb. intros Hab Hbc.
  destruct (String.compare c a) eqn:Hca; try reflexivity.
  destruct (String.compare a b) eqn:Eab; try discriminate.
  now rewrite (string_compare_lt_trans _ _ _ Hca Eab) in Hbc.
Qed.

(** ** Objects *)

Lemma get_put_eq {V} (o : obj V) k v : get (put o k v) k = Some v.
Proof.
  induction o as [|[k' v'] o IH]; simpl.
  - now rewrite String.eqb_refl.
  - destruct (String.eqb k' k) eqn:E; simpl; rewrite E; auto.
Qed.

Lemma get_put_ne {V} (o : obj V) k k' v :
  k <> k' -> get (put o k v) k' = get o k'.
Proof.
  intros Hne. induction o as [|[k0 v0] o IH]; simpl.
  - destruct (String.eqb_spec k k'); congruence.
  - destruct (String.eqb_spec k0 k) as [->|Hk]; simpl.
    + destruct (String.eqb_spec k k'); congruence.
    + now rewrite IH.
Qed.

Lemma get_put {V} (o : obj V) k k' v :
  get (put o k v) k' = if String.eqb k k' then Some v else get o k'.
Proof.
  destruct (String.eqb_spec k k') as [->|Hne].
  - apply get_put_eq.
  - now apply get_put_ne.
Qed.

Lemma get_None_keys {V} (o : obj V) k : get o k = None <-> ~ In k (keys o).
Proof.
  induction o as [|[k' v'] o IH]; simpl; [tauto|].
  destruct (String.eqb_spec k' k) as [->|Hk]; split; intros H.
  - discriminate.
  - exfalso. apply H. now left.
  - intros [E|Hin]; [congruence | now apply IH in H].
  - apply IH. tauto.
Qed.

Lemma get_Some_keys {V} (o : obj V) k v : get o k = Some v -> In k (keys o).
Proof.
  intros H. destruct (in_dec String.string_dec k (keys o)) as [Hin|Hout]; auto.
  apply get_None_keys in Hout. congruence.
Qed.

Lemma keys_put_old {V} (o : obj V) k v :
  In k (keys o) -> keys (put o k v) = keys o.
Proof.
  induction o as [|[k' v'] o IH]; simpl; [tauto|].
  destruct (String.eqb_spec k' k) as [->|Hk]; simpl; [reflexivity|].
  intros [E|Hin]; [congruence | now rewrite IH].
Qed.

Lemma keys_put_new {V} (o : obj V) k v :
  ~ In k (keys o) -> keys (put o k v) = keys o ++ [k].
Proof.
  induction o as [|[k' v'] o IH]; simpl; [reflexivity|].
  destruct (String.eqb_spec k' k) as [->|Hk]; simpl; [tauto|].
  intros Hout. rewrite IH; tauto.
Qed.

Lemma keys_put_NoDup {V} (o : obj V) k v :
  List.NoDup (keys o) -> List.NoDup (keys (put o k v)).
Proof.
  intros Hnd. destruct (in_dec String.string_dec k (keys o)) as [Hin|Hout].
  - now rewrite keys_put_old.
  - rewrite keys_put_new by assumption.
    apply List.NoDup_app; auto.
    + apply List.NoDup_cons; [simpl; tauto | constructor].
    + intros x Hx [->|[]]. contradiction.
Qed.

Lemma entry_get {V} (o : obj V) k v :
  List.NoDup (keys o) -> (In (k, v) o <-> get o k = Some v).
Proof.
  induction o as [|[k' v'] o IH]; simpl; intros Hnd.
  - split; [tauto | discriminate].
  - inversion Hnd as [|? ? Hout Hnd']; subst.
    destruct (String.eqb_spec k' k) as [->|Hk]; split.
    + intros [E|Hin]; [congruence|].
      exfalso. apply Hout. apply (in_map fst) in Hin. exact Hin.
    + intros E. left. congruence.
    + intros [E|Hin]; [congruence | now apply IH].
    + intros E. right. now apply IH.
Qed.

(** ** The disaster-count index *)

Lemma get_count_up o k s :
  get (count_up o k) s =
    if String.eqb k s
    then Some (S (match get o s with Some (S n) => S n | _ => 0 end))
    else get o s.
Proof.
  unfold count_up, incr.
  destruct (String.eqb_spec k s) as [->|Hne].
  - destruct (get o s) as [[|n]|] eqn:E; simpl.
    + now rewrite get_put_eq, get_put_eq.
    + now rewrite E, get_put_eq.
    + now rewrite get_put_eq, get_put_eq.
  - destruct (not_count (get o k)).
    + rewrite get_put_eq, !get_put_ne by assumption. reflexivity.
    + destruct (get o k); [now rewrite get_put_ne|reflexivity].
Qed.

Lemma keys_count_up_NoDup o k :
  List.NoDup (keys o) -> List.NoDup (keys (count_up o k)).
Proof.
  intros Hnd. unfold count_up, incr.
  destruct (not_count _); [rewrite get_put_eq|destruct (get o _)]; auto;
    repeat apply keys_put_NoDup; assumption.
Qed.

Lemma getDisasterCounts_snoc ds d :
  getDisasterCounts (ds ++ [d])
  = count_up (getDisasterCounts ds) (Disaster.state d).
Proof. unfold getDisasterCounts. now rewrite fold_left_app. Qed.

Lemma getNumDisastersForState_snoc ds d s :
  getNumDisastersForState (ds ++ [d]) s =
    getNumDisastersForState ds s
    + (if String.eqb (Disaster.state d) s then 1 else 0).
Proof.
  unfold getNumDisastersForState. rewrite List.filter_app, List.length_app.
  simpl. now destruct (String.eqb _ _).
Qed.

Lemma keys_getDisasterCounts_NoDup ds : List.NoDup (keys (getDisasterCounts ds)).
Proof.
  induction ds as [|d ds IH] using rev_ind.
  - constructor.
  - rewrite getDisasterCounts_snoc. now apply keys_count_up_NoDup.
Qed.

(** The index holds, for each state, the number of its records, and holds
    nothing for a state without records. *)
Lemma get_getDisasterCounts ds s :
  get (getDisasterCounts ds) s =
    match getNumDisastersForState ds s with
    | 0 => None
    | S n => Some (S n)
    end.
Proof.
  induction ds as [|d ds IH] using rev_ind; [reflexivity|].
  rewrite getDisasterCounts_snoc, get_count_up, IH.
  rewrite getNumDisastersForState_snoc.
  destruct (String.eqb _ _), (getNumDisastersForState ds s); simpl;
    rewrite ?Nat.add_0_r, ?Nat.add_1_r; reflexivity.
Qed.

Lemma getNumDisastersForState_pos ds s :
  0 < getNumDisastersForState ds s <-> In s (List.map Disaster.state ds).
Proof.
  unfold getNumDisastersForState.
  induction ds as [|d ds IH]; simpl; [split; [lia | tauto]|].
  destruct (String.eqb_spec (Disaster.state d) s) as [->|Hne]; simpl.
  - split; [auto | lia].
  - rewrite IH. tauto.
Qed.

(** ** The two ranking loops *)


Lemma most_step_inv seen acc e :
  1 <= snd e -> most_inv seen acc -> most_inv (seen ++ [e]) (most_step acc e).
Proof.
  destruct e as [st c], acc as [mx best]. simpl. intros Hc Hinv.
  right. unfold most_step.
  destruct Hinv as [[-> [= -> ->]]|[Hin Hall]]; simpl in *.
  - destruct (Nat.ltb_spec 0 c); [|lia]. simpl. split; [now left|].
    intros t c' [[= -> ->]|[]]. split; [lia | intros _; apply lex_le_refl].
  - destruct (Nat.ltb_spec mx c) as [Hlt|Hge]; simpl.
    + split; [apply in_or_app; right; now left|].
      intros t c' [Hold|[[= -> ->]|[]]]%in_app_or.
      * destruct (Hall _ _ Hold). split; lia.
      * split; [lia | intros _; apply lex_le_refl].
    + destruct (Nat.eqb_spec c mx) as [->|Hne]; simpl.
      * destruct (String.ltb st best) eqn:Elt; simpl.
        -- split; [apply in_or_app; right; now left|].
           intros t c' [Hold|[[= -> ->]|[]]]%in_app_or.
           ++ destruct (Hall _ _ Hold) as [Hle Htie]. split; [exact Hle|].
              intros E. eapply lex_lt_le_trans; eauto.
           ++ split; [lia | intros _; apply lex_le_refl].
        -- split; [apply in_or_app; now left|].
           intros t c' [Hold|[[= -> ->]|[]]]%in_app_or; [now apply Hall|].
           split; [lia | intros _; exact Elt].
      * split; [apply in_or_app; now left|].
        intros t c' [Hold|[[= -> ->]|[]]]%in_app_or; [now apply Hall|].
        split; lia.
Qed.

Lemma most_fold_inv l : forall seen acc,
  Forall (fun e => 1 <= snd e) l -> most_inv seen acc ->
  most_inv (seen ++ l) (fold_left most_step l acc).
Proof.
  induction l as [|e l IH]; intros seen acc Hpos Hinv; simpl.
  - now rewrite app_nil_r.
  - inversion Hpos; subst.
    replace (seen ++ e :: l) with ((seen ++ [e]) ++ l)
      by (rewrite <- app_assoc; reflexivity).
    apply IH; [assumption|]. now apply most_step_inv.
Qed.


Lemma least_step_inv seen acc e :
  least_inv seen acc -> least_inv (seen ++ [e]) (least_step acc e).
Proof.
  destruct e as [st c], acc as [mn best]. intros Hinv.
  right. unfold least_step.
  destruct Hinv as [[-> [= -> ->]]|(m & Hm & Hin & Hall)]; simpl in *.
  - exists c. simpl. split; [reflexivity|]. split; [now left|].
    intros t c' [[= -> ->]|[]]. split; [lia | intros _; apply lex_le_refl].
  - subst mn. simpl.
    destruct (Nat.ltb_spec c m) as [Hlt|Hge]; simpl.
    + exists c. simpl. split; [reflexivity|].
      split; [apply in_or_app; right; now left|].
      intros t c' [Hold|[[= -> ->]|[]]]%in_app_or.
      * destruct (Hall _ _ Hold). split; lia.
      * split; [lia | intros _; apply lex_le_refl].
    + destruct (Nat.eqb_spec c m) as [->|Hne]; simpl.
      * destruct (String.ltb st best) eqn:Elt; simpl.
        -- exists m. simpl. split; [reflexivity|].
           split; [apply in_or_app; right; now left|].
           intros t c' [Hold|[[= -> ->]|[]]]%in_app_or.
           ++ destruct (Hall _ _ Hold) as [Hle Htie]. split; [exact Hle|].
              intros E. eapply lex_lt_le_trans; eauto.
           ++ split; [lia | intros _; apply lex_le_refl].
        -- exists m. simpl. split; [reflexivity|].
           split; [apply in_or_app; now left|].
           intros t c' [Hold|[[= -> ->]|[]]]%in_app_or; [now apply Hall|].
           split; [lia | intros _; exact Elt].
      * exists m. simpl. split; [reflexivity|].
        split; [apply in_or_app; now left|].
        intros t c' [Hold|[[= -> ->]|[]]]%in_app_or; [now apply Hall|].
        split; lia.
Qed.

Lemma least_fold_inv l : forall seen acc,
  least_inv seen acc -> least_inv (seen ++ l) (fold_left least_step l acc).
Proof.
  induction l as [|e l IH]; intros seen acc Hinv; simpl.
  - now rewrite app_nil_r.
  - replace (seen ++ e :: l) with ((seen ++ [e]) ++ l)
      by (rewrite <- app_assoc; reflexivity).
    apply IH. now apply least_step_inv.
Qed.

Lemma getDisasterCounts_entries_pos ds :
  Forall (fun e : string * nat => 1 <= snd e) (getDisasterCounts ds).
Proof.
  apply List.Forall_forall. intros [t c] Hin. simpl.
  apply entry_get in Hin; [|apply keys_getDisasterCounts_NoDup].
  rewrite get_getDisasterCounts in Hin.
  destruct (getNumDisastersForState ds t); [discriminate|].
  injection Hin as <-. lia.
Qed.

Lemma getDisasterCounts_nonempty ds : ds <> [] -> getDisasterCounts ds <> [].
Proof.
  destruct ds as [|d ds]; [congruence|]. intros _ E.
  pose proof (get_getDisasterCounts (d :: ds) (Disaster.state d)) as H.
  rewrite E in H. unfold getNumDisastersForState in H. simpl in H.
  rewrite String.eqb_refl in H. discriminate H.
Qed.

Lemma get_getDisasterCounts_In ds t c :
  get (getDisasterCounts ds) t = Some c -> In t (List.map Disaster.state ds).
Proof.
  rewrite get_getDisasterCounts. intros H.
  apply getNumDisastersForState_pos.
  destruct (getNumDisastersForState ds t); [discriminate | lia].
Qed.

(** C2.  When no disaster record has for state the name of a member of
    [Object.prototype], the disaster-count index and the linear scan agree:
    for every state name, [getNumDisastersForState] is the index entry when
    the state is a key and 0 when it is not; the keys of the index, each
    held once, are exactly the states of the disaster records. *)
Theorem C2_index_agrees_with_scan (sfcc2023Disasters : list Disaster.t)
    (state : string) :
  Forall (fun disaster => inherited (Disaster.state disaster) = false)
    sfcc2023Disasters ->
  match get (getDisasterCounts sfcc2023Disasters) state with
  | Some count => getNumDisastersForState sfcc2023Disasters state = count
  | None => getNumDisastersForState sfcc2023Disasters state = 0
  end
  /\ (In state (keys (getDisasterCounts sfcc2023Disasters))
      <-> In state (List.map Disaster.state sfcc2023Disasters))
  /\ List.NoDup (keys (getDisasterCounts sfcc2023Disasters)).
Proof.
  intros _. split; [|split].
  - rewrite get_getDisasterCounts.
    now destruct (getNumDisastersForState sfcc2023Disasters state).
  - rewrite <- getNumDisastersForState_pos. split.
    + intros Hin.
      destruct (get (getDisasterCounts sfcc2023Disasters) state) eqn:E.
      * apply get_getDisasterCounts_In in E.
        now apply getNumDisastersForState_pos.
      * apply get_None_keys in E. contradiction.
    + intros Hpos.
      destruct (get (getDisasterCounts sfcc2023Disasters) state) eqn:E.
      * eapply get_Some_keys; eauto.
      * rewrite get_getDisasterCounts in E.
        destruct (getNumDisastersForState sfcc2023Disasters state);
          [lia | discriminate].
  - apply keys_getDisasterCounts_NoDup.
Qed.

Lemma C2_index_agrees_with_scan_witness :
  Forall (fun disaster => inherited (Disaster.state disaster) = false)
    sample_disasters
  /\ get (getDisasterCounts sample_disasters) "Texas" = Some 2
  /\ getNumDisastersForState sample_disasters "Texas" = 2
  /\ get (getDisasterCounts sample_disasters) "Nevada" = None
  /\ getNumDisastersForState sample_disasters "Nevada" = 0
  /\ (In "Texas" (keys (getDisasterCounts sample_disasters))
      <-> In "Texas" (List.map Disaster.state sample_disasters)).
Proof.
  assert (Forall (fun disaster => inherited (Disaster.state disaster) = false)
            sample_disasters) as Hplain by (repeat constructor).
  split; [exact Hplain|]. split; [reflexivity|].
  split; [exact (proj1 (C2_index_agrees_with_scan sample_disasters "Texas"
                          Hplain))|].
  split; [reflexivity|].
  split; [exact (proj1 (C2_index_agrees_with_scan sample_disasters "Nevada"
                          Hplain))|].
  exact (proj1 (proj2 (C2_index_agrees_with_scan sample_disasters "Texas"
                         Hplain))).
Defined.

(** C1, as the code has it.  When the disaster collection is not empty and
    no record has for state the name of a member of [Object.prototype],
    [getStateWithMostDisasters] and [getStateWithLeastDisasters] each return
    a state of some disaster record; the state returned holds the greatest
    (respectively the least) count of the index, and is not after any state
    of the index with the same count; a state without disasters has no
    entry in the index. *)
Theorem C1_most_and_least (sfcc2023Disasters : list Disaster.t) :
  sfcc2023Disasters <> [] ->
  Forall (fun disaster => inherited (Disaster.state disaster) = false)
    sfcc2023Disasters ->
  let index := getDisasterCounts sfcc2023Disasters in
  let most := getStateWithMostDisasters sfcc2023Disasters in
  let least := getStateWithLeastDisasters sfcc2023Disasters in
  In most (List.map Disaster.state sfcc2023Disasters)
  /\ In least (List.map Disaster.state sfcc2023Disasters)
  /\ (exists top, get index most = Some top /\
        forall t c, get index t = Some c ->
          c <= top /\ (c = top -> lex_le most t))
  /\ (exists bottom, get index least = Some bottom /\
        forall t c, get index t = Some c ->
          bottom <= c /\ (c = bottom -> lex_le least t))
  /\ (forall t, getNumDisastersForState sfcc2023Disasters t = 0 ->
        get index t = None).
Proof.
  intros Hne _ index most least.
  pose proof (keys_getDisasterCounts_NoDup sfcc2023Disasters) as Hnd.
  pose proof (getDisasterCounts_nonempty _ Hne) as Hidx.
  assert (exists top, get index most = Some top /\
        forall t c, get index t = Some c ->
          c <= top /\ (c = top -> lex_le most t)) as Hmost.
  { pose proof (most_fold_inv (getDisasterCounts sfcc2023Disasters) [] (0, "")
                  (getDisasterCounts_entries_pos _)
                  (or_introl (conj eq_refl eq_refl))) as Hinv.
    simpl in Hinv. destruct Hinv as [[E _]|[Hin Hall]]; [contradiction|].
    exists (fst (fold_left most_step (getDisasterCounts sfcc2023Disasters) (0, ""))).
    split; [now apply entry_get|].
    intros t c Ht. apply Hall. now apply entry_get. }
  assert (exists bottom, get index least = Some bottom /\
        forall t c, get index t = Some c ->
          bottom <= c /\ (c = bottom -> lex_le least t)) as Hleast.
  { pose proof (least_fold_inv (getDisasterCounts sfcc2023Disasters) []
                  (Infinity, "") (or_introl (conj eq_refl eq_refl))) as Hinv.
    simpl in Hinv. destruct Hinv as [[E _]|(m & _ & Hin & Hall)]; [contradiction|].
    exists m. split; [now apply entry_get|].
    intros t c Ht. apply Hall. now apply entry_get. }
  split; [|split; [|split; [|split]]]; auto.
  - destruct Hmost as (top & Htop & _). eapply get_getDisasterCounts_In; eauto.
  - destruct Hleast as (bottom & Hb & _). eapply get_getDisasterCounts_In; eauto.
  - intros t Ht. unfold index. now rewrite get_getDisasterCounts, Ht.
Qed.


Lemma C1_most_and_least_witness :
  sample_disasters <> []
  /\ Forall (fun disaster => inherited (Disaster.state disaster) = false)
       sample_disasters
  /\ getStateWithMostDisasters sample_disasters = "Ohio"
  /\ getStateWithLeastDisasters sample_disasters = "Iowa"
  /\ In (getStateWithMostDisasters sample_disasters)
        (List.map Disaster.state sample_disasters).
Proof.
  assert (sample_disasters <> []) as Hne by discriminate.
  assert (Forall (fun disaster => inherited (Disaster.state disaster) = false)
            sample_disasters) as Hplain by (repeat constructor).
  split; [exact Hne|]. split; [exact Hplain|].
  split; [reflexivity|]. split; [reflexivity|].
  exact (proj1 (C1_most_and_least sample_disasters Hne Hplain)).
Defined.

(** C1 as stated fails on the empty collection: the state returned is the
    empty string, which is the state of no record. *)
Lemma C1_counterexample :
  ~ In (getStateWithMostDisasters []) (List.map Disaster.state []).
Proof. simpl. tauto. Qed.

(** C10.  On the empty disaster collection the index has no keys and both
    ranking queries return the empty string. *)
Theorem C10_empty_collection :
  keys (getDisasterCounts []) = []
  /\ getStateWithMostDisasters [] = ""
  /\ getStateWithLeastDisasters [] = "".
Proof. repeat split. Qed.

(** ** Open claims of an agent *)

Lemma fold_count_if {A} (p : A -> bool) (l : list A) (acc : Z) :
  fold_left (fun acc x => if p x then (acc + 1)%Z else acc) l acc
  = (acc + Z.of_nat (count_if p l))%Z.
Proof.
  unfold count_if. revert acc. induction l as [|x l IH]; intros acc; simpl.
  - lia.
  - rewrite IH. destruct (p x); simpl; lia.
Qed.

Lemma filter_nil_iff {A} (p : A -> bool) (l : list A) :
  List.filter p l = [] <-> forall x, In x l -> p x = false.
Proof.
  induction l as [|x l IH]; simpl; [tauto|].
  destruct (p x) eqn:E; split.
  - discriminate.
  - intros H. specialize (H x (or_introl eq_refl)). congruence.
  - intros H y [<-|Hy]; [assumption | now apply IH].
  - intros H. apply IH. auto.
Qed.

Lemma count_if_filter {A} (p q : A -> bool) (l : list A) :
  count_if q (List.filter p l) = count_if (fun x => p x && q x) l.
Proof.
  unfold count_if. induction l as [|x l IH]; simpl; [reflexivity|].
  destruct (p x); simpl; [destruct (q x); simpl; congruence | exact IH].
Qed.

Lemma count_if_ext {A} (p q : A -> bool) (l : list A) :
  (forall x, In x l -> p x = q x) -> count_if p l = count_if q l.
Proof.
  unfold count_if. induction l as [|x l IH]; simpl; intros H; [reflexivity|].
  rewrite (H x (or_introl eq_refl)), (List.filter_ext_in p q l) by auto.
  reflexivity.
Qed.

Lemma count_if_0 {A} (p : A -> bool) (l : list A) :
  count_if p l = 0 <-> forall x, In x l -> p x = false.
Proof.
  unfold count_if. rewrite <- filter_nil_iff.
  destruct (List.filter p l); simpl; split; congruence.
Qed.

(** C3.  [getNumOfOpenClaimsForAgentAndSeverity] returns -1 when the
    minimum severity is above 10 or not above 0; otherwise [null] when no
    claim is assigned to the agent; otherwise the number of claims of the
    agent that are not closed and at least that severe, which is 0 when all
    the agent's claims that severe are closed. *)
Theorem C3_open_claims_for_agent (sfcc2023Claims : list Claim.t)
    (agentId minSeverityRating : Z) :
  let result :=
    getNumOfOpenClaimsForAgentAndSeverity sfcc2023Claims agentId
      minSeverityRating in
  let in_range := (0 < minSeverityRating <= 10)%Z in
  let has_claims :=
    exists claim, In claim sfcc2023Claims
                  /\ Claim.agent_assigned_id claim = agentId in
  ((10 < minSeverityRating \/ minSeverityRating <= 0)%Z ->
     result = Some (-1)%Z)
  /\ (in_range -> ~ has_claims -> result = None)
  /\ (in_range -> has_claims ->
      result = Some (Z.of_nat (count_if (open_and_severe agentId
                                           minSeverityRating)
                                 sfcc2023Claims)))
  /\ (in_range -> has_claims ->
      (forall claim, In claim sfcc2023Claims ->
         Claim.agent_assigned_id claim = agentId ->
         (minSeverityRating <= Claim.severity_rating claim)%Z ->
         Claim.status claim = "Closed") ->
      result = Some 0%Z).
Proof.
  intros result in_range has_claims.
  assert (in_range -> has_claims ->
      result = Some (Z.of_nat (count_if (open_and_severe agentId
                                           minSeverityRating)
                                 sfcc2023Claims))) as Hcount.
  { intros Hr (claim & Hin & Hagent). subst result.
    unfold getNumOfOpenClaimsForAgentAndSeverity.
    destruct (Z.ltb_spec 10 minSeverityRating); [unfold in_range in Hr; lia|].
    destruct (Z.leb_spec minSeverityRating 0); [unfold in_range in Hr; lia|].
    simpl.
    destruct (List.filter _ sfcc2023Claims) eqn:E at 1.
    { exfalso. pose proof (proj1 (filter_nil_iff _ _) E claim Hin) as Hf.
      simpl in Hf. rewrite Hagent, Z.eqb_refl in Hf. discriminate. }
    simpl. f_equal. rewrite fold_count_if, !count_if_filter, Z.add_0_l.
    f_equal. apply count_if_ext. intros x _. unfold open_and_severe.
    now rewrite andb_assoc. }
  split; [|split; [|split]]; auto.
  - intros Hout. subst result. unfold getNumOfOpenClaimsForAgentAndSeverity.
    destruct (Z.ltb_spec 10 minSeverityRating); [reflexivity|].
    destruct (Z.leb_spec minSeverityRating 0); [reflexivity|]. lia.
  - intros Hr Hnone. subst result.
    unfold getNumOfOpenClaimsForAgentAndSeverity.
    destruct (Z.ltb_spec 10 minSeverityRating); [unfold in_range in Hr; lia|].
    destruct (Z.leb_spec minSeverityRating 0); [unfold in_range in Hr; lia|].
    simpl.
    assert (List.filter
              (fun claim => Z.eqb (Claim.agent_assigned_id claim) agentId)
              sfcc2023Claims = []) as ->; [|reflexivity].
    apply filter_nil_iff. intros x Hx.
    destruct (Z.eqb_spec (Claim.agent_assigned_id x) agentId); [|reflexivity].
    exfalso. apply Hnone. now exists x.
  - intros Hr Hhas Hclosed. rewrite (Hcount Hr Hhas). f_equal.
    change 0%Z with (Z.of_nat 0). f_equal.
    apply count_if_0. intros x Hx. unfold open_and_severe.
    destruct (Z.eqb_spec (Claim.agent_assigned_id x) agentId); [|reflexivity].
    destruct (Z.leb_spec minSeverityRating (Claim.severity_rating x));
      [|now rewrite andb_false_r].
    rewrite (Hclosed x Hx) by assumption. reflexivity.
Qed.

Lemma C3_open_claims_for_agent_witness :
  getNumOfOpenClaimsForAgentAndSeverity sample_claims 7 0 = Some (-1)%Z
  /\ getNumOfOpenClaimsForAgentAndSeverity sample_claims 7 11 = Some (-1)%Z
  /\ getNumOfOpenClaimsForAgentAndSeverity sample_claims 42 5 = None
  /\ getNumOfOpenClaimsForAgentAndSeverity sample_claims 7 5 = Some 1%Z
  /\ getNumOfOpenClaimsForAgentAndSeverity sample_claims 8 5 = Some 0%Z.
Proof.
  split; [apply (C3_open_claims_for_agent sample_claims 7 0); lia|].
  split; [apply (C3_open_claims_for_agent sample_claims 7 11); lia|].
  split.
  { apply (C3_open_claims_for_agent sample_claims 42 5); [lia|].
    intros (claim & Hin & Hagent). simpl in Hin.
    repeat (destruct Hin as [<-|Hin]; [discriminate Hagent|]). exact Hin. }
  split.
  { apply (C3_open_claims_for_agent sample_claims 7 5); [lia|].
    eexists. split; [left; reflexivity | reflexivity]. }
  apply (C3_open_claims_for_agent sample_claims 8 5); [lia| |].
  - eexists. split; [right; right; left; reflexivity | reflexivity].
  - intros claim Hin Hagent Hsev. simpl in Hin.
    repeat (destruct Hin as [<-|Hin];
            [first [reflexivity | discriminate Hagent | simpl in Hsev; lia]|]).
    destruct Hin.
Defined.

(** ** The most spoken language *)

Lemma spoken_Some language l :
  spoken language = Some l <-> language = Some l /\ l <> "" /\ l <> "English".
Proof.
  unfold spoken. destruct language as [l'|]; [|split; [discriminate|]].
  - destruct (String.eqb_spec l' ""), (String.eqb_spec l' "English"); simpl;
      split; try discriminate; try (intros [[= ->] [? ?]]; congruence);
      intros [= ->]; auto.
  - now intros [? _].
Qed.

Lemma spoken_tallied language : spoken language <> None <-> tallied language.
Proof.
  split.
  - destruct (spoken language) as [l|] eqn:E; [|congruence].
    intros _. exists l. now apply spoken_Some.
  - intros (l & Hl). apply spoken_Some in Hl. congruence.
Qed.

Lemma counted_snoc l seen agent :
  counted l (seen ++ [agent]) =
    counted l seen
    + match spoken (Agent.secondary_language agent) with
      | Some l' => if String.eqb l' l then 1 else 0
      | None => 0
      end.
Proof.
  unfold counted, count_if. rewrite List.filter_app, List.length_app. simpl.
  destruct (spoken _) as [l'|]; [destruct (String.eqb l' l)|]; reflexivity.
Qed.

Lemma tally_agent_inv seen loop agent :
  language_inv seen loop ->
  language_inv (seen ++ [agent]) (tally_agent loop agent).
Proof.
  intros [Hfreq Hbest]. unfold tally_agent.
  destruct (spoken (Agent.secondary_language agent)) as [L|] eqn:EL.
  2:{ assert (Hsame : forall l, counted l (seen ++ [agent]) = counted l seen).
      { intros l. now rewrite counted_snoc, EL, Nat.add_0_r. }
      split.
      - intros l. rewrite Hsame. apply Hfreq.
      - destruct Hbest as [(? & ? & H0)|(? & ? & Hall)]; [left|right].
        + repeat split; auto. intros l. rewrite Hsame. apply H0.
        + rewrite Hsame. split; [assumption|]. split; [assumption|].
          intros l. rewrite Hsame. apply Hall. }
  assert (forall l, counted l (seen ++ [agent]) =
                    counted l seen + (if String.eqb L l then 1 else 0)) as Hsnoc.
  { intros l. now rewrite counted_snoc, EL. }
  assert (Hnew : forall l,
    get (count_up (language_frequency loop) L) l =
      match counted l (seen ++ [agent]) with 0 => None | S n => Some (S n) end).
  { intros l. rewrite get_count_up, Hsnoc, Hfreq.
    destruct (String.eqb L l), (counted l seen); simpl;
      rewrite ?Nat.add_0_r, ?Nat.add_1_r; reflexivity. }
  pose proof (Hnew L) as HL. rewrite Hsnoc, String.eqb_refl, Nat.add_1_r in HL.
  rewrite HL.
  assert (Hother : forall l, l <> L ->
            counted l (seen ++ [agent]) = counted l seen).
  { intros l Hl. rewrite Hsnoc.
    destruct (String.eqb_spec L l); [congruence | lia]. }
  assert (Hself : counted L (seen ++ [agent]) = S (counted L seen)).
  { rewrite Hsnoc, String.eqb_refl. lia. }
  destruct Hbest as [(Hmax & Hmost & H0)|(Hpos & Hcur & Hall)].
  - rewrite Hmax. simpl. split; [exact Hnew|]. right. simpl.
    rewrite Hself, H0. repeat split; [lia|..].
    + intros. destruct (String.eqb_spec l L) as [->|Hl].
      * rewrite Hself, H0. lia.
      * rewrite (Hother _ Hl), H0. lia.
    + intros E. destruct (String.eqb_spec l L) as [->|Hl];
        [apply lex_le_refl|].
      rewrite (Hother _ Hl), H0 in E. discriminate.
  - destruct (Nat.ltb_spec (max_language_counter loop) (S (counted L seen)))
      as [Hlt|Hge].
    + split; [exact Hnew|]. right. simpl. rewrite Hself.
      repeat split; [lia|..].
      * destruct (String.eqb_spec l L) as [->|Hl].
        -- rewrite Hself. lia.
        -- rewrite (Hother _ Hl). destruct (Hall l). lia.
      * intros E. destruct (String.eqb_spec l L) as [->|Hl];
          [apply lex_le_refl|].
        rewrite (Hother _ Hl) in E. destruct (Hall l). lia.
    + destruct (Nat.eqb_spec (S (counted L seen)) (max_language_counter loop))
        as [Heq|Hne]; simpl.
      * destruct (String.ltb L (most_spoken_language loop)) eqn:Elt; simpl.
        -- split; [exact Hnew|]. right. simpl. rewrite Hself.
           repeat split; [lia | lia |..].
           ++ destruct (String.eqb_spec l L) as [->|Hl].
              ** rewrite Hself. lia.
              ** rewrite (Hother _ Hl). apply Hall.
           ++ intros E. destruct (String.eqb_spec l L) as [->|Hl];
                [apply lex_le_refl|].
              rewrite (Hother _ Hl) in E.
              eapply lex_lt_le_trans; [exact Elt|]. now apply Hall.
        -- split; [exact Hnew|]. right. simpl.
           assert (most_spoken_language loop <> L) as Hm.
           { intros E. rewrite E in Hcur. lia. }
           rewrite (Hother _ Hm). repeat split; [lia | exact Hcur |..].
           ++ destruct (String.eqb_spec l L) as [->|Hl].
              ** rewrite Hself. lia.
              ** rewrite (Hother _ Hl). apply Hall.
           ++ intros E. destruct (String.eqb_spec l L) as [->|Hl];
                [exact Elt|].
              rewrite (Hother _ Hl) in E. now apply Hall.
      * split; [exact Hnew|]. right. simpl.
        assert (most_spoken_language loop <> L) as Hm.
        { intros E. rewrite E in Hcur. lia. }
        rewrite (Hother _ Hm). repeat split; [lia | exact Hcur |..].
        -- destruct (String.eqb_spec l L) as [->|Hl].
           ++ rewrite Hself. lia.
           ++ rewrite (Hother _ Hl). apply Hall.
        -- intros E. destruct (String.eqb_spec l L) as [->|Hl].
           ++ rewrite Hself in E. lia.
           ++ rewrite (Hother _ Hl) in E. now apply Hall.
Qed.

Lemma tally_fold_inv agents : forall seen loop,
  language_inv seen loop ->
  language_inv (seen ++ agents) (fold_left tally_agent agents loop).
Proof.
  induction agents as [|a agents IH]; intros seen loop Hinv; simpl.
  - now rewrite app_nil_r.
  - replace (seen ++ a :: agents) with ((seen ++ [a]) ++ agents)
      by (rewrite <- app_assoc; reflexivity).
    apply IH. now apply tally_agent_inv.
Qed.

Lemma counted_pos l seen : 0 < counted l seen -> l <> "" /\ l <> "English".
Proof.
  unfold counted, count_if. induction seen as [|a seen IH]; simpl; [lia|].
  destruct (spoken (Agent.secondary_language a)) as [l'|] eqn:El'; [|exact IH].
  destruct (String.eqb_spec l' l) as [->|]; [|exact IH].
  intros _. apply spoken_Some in El'. tauto.
Qed.

Lemma counted_filter_state state l agents :
  l <> "" -> l <> "English" ->
  counted l (List.filter (fun agent => String.eqb (Agent.state agent) state)
               agents)
  = count_if (speaks state l) agents.
Proof.
  intros Hempty Henglish. unfold counted. rewrite count_if_filter.
  apply count_if_ext. intros a _. unfold speaks. f_equal.
  destruct (Agent.secondary_language a) as [l'|]; simpl; [|reflexivity].
  destruct (String.eqb_spec l' ""), (String.eqb_spec l' "English"); simpl;
    try reflexivity; subst; symmetry; now apply String.eqb_neq.
Qed.

(** C5.  [getMostSpokenAgentLanguageByState] looks only at the agents of
    the state and at their secondary languages that are present, not empty
    and not "English".  If no agent of the state has such a language (in
    particular if the state has no agents) the result is the empty string.
    Otherwise, when no agent of the state has for secondary language the
    name of a member of [Object.prototype], the result is such a language,
    spoken by the greatest number of agents of the state, and not after
    any other language spoken by as many. *)
Theorem C5_most_spoken_language (sfcc2023Agents : list Agent.t)
    (state : string) :
  let result := getMostSpokenAgentLanguageByState sfcc2023Agents state in
  let tally language := count_if (speaks state language) sfcc2023Agents in
  ((forall agent, In agent sfcc2023Agents -> Agent.state agent <> state) ->
     result = "")
  /\ ((forall agent, In agent sfcc2023Agents -> Agent.state agent = state ->
         ~ tallied (Agent.secondary_language agent)) ->
      result = "")
  /\ ((forall agent language,
         In agent sfcc2023Agents -> Agent.state agent = state ->
         Agent.secondary_language agent = Some language ->
         inherited language = false) ->
      (exists agent, In agent sfcc2023Agents /\ Agent.state agent = state
                     /\ tallied (Agent.secondary_language agent)) ->
      result <> "" /\ result <> "English" /\ 0 < tally result
      /\ forall language, language <> "" -> language <> "English" ->
           tally language <= tally result
           /\ (tally language = tally result -> lex_le result language)).
Proof.
  intros result tally.
  remember (List.filter (fun agent => String.eqb (Agent.state agent) state)
              sfcc2023Agents) as agents eqn:Eagents.
  pose proof (tally_fold_inv agents [] (mkLoop [] 0 "")) as Hinv.
  simpl in Hinv.
  specialize (Hinv (conj (fun _ => eq_refl)
                         (or_introl (conj eq_refl
                                       (conj eq_refl (fun _ => eq_refl)))))).
  destruct Hinv as [_ Hbest].
  assert (Hres : agents <> [] ->
            result = most_spoken_language
                       (fold_left tally_agent agents (mkLoop [] 0 ""))).
  { intros Hne. subst result. unfold getMostSpokenAgentLanguageByState.
    rewrite <- Eagents. destruct agents; [congruence | reflexivity]. }
  assert (Hnil : agents = [] -> result = "").
  { intros E. subst result. unfold getMostSpokenAgentLanguageByState.
    rewrite <- Eagents, E. reflexivity. }
  assert (Hc : forall l, l <> "" -> l <> "English" ->
                 counted l agents = tally l).
  { intros l He Hn. rewrite Eagents. apply counted_filter_state; assumption. }
  assert (Hsome : forall l, 0 < tally l ->
            exists agent, In agent sfcc2023Agents /\ Agent.state agent = state
                          /\ Agent.secondary_language agent = Some l).
  { intros l Hpos. unfold tally, count_if in Hpos.
    destruct (List.filter (speaks state l) sfcc2023Agents) as [|a rest] eqn:E;
      [simpl in Hpos; lia|].
    assert (In a (List.filter (speaks state l) sfcc2023Agents)) as Hin
      by (rewrite E; now left).
    apply List.filter_In in Hin. destruct Hin as [Hin Hsp].
    unfold speaks in Hsp. apply andb_true_iff in Hsp. destruct Hsp as [Hst Hl].
    apply String.eqb_eq in Hst.
    destruct (Agent.secondary_language a) as [l'|] eqn:El'; [|discriminate].
    apply String.eqb_eq in Hl. subst l'. now exists a. }
  assert (Hnone : (forall agent, In agent sfcc2023Agents ->
                     Agent.state agent = state ->
                     ~ tallied (Agent.secondary_language agent)) ->
                  result = "").
  { intros Hno.
    assert (agents = [] \/ agents <> []) as [E|Hne]
      by (destruct agents; [now left | now right]); [now apply Hnil|].
    rewrite (Hres Hne).
    destruct Hbest as [(_ & Hmost & _)|(Hpos & Hcur & _)]; [exact Hmost|].
    exfalso. rewrite <- Hcur in Hpos.
    destruct (counted_pos _ _ Hpos) as [He Hn].
    rewrite (Hc _ He Hn) in Hpos.
    destruct (Hsome _ Hpos) as (a & Hin & Hst & Hl).
    apply (Hno a Hin Hst). rewrite Hl. eexists. eauto. }
  split; [|split]; [|exact Hnone|].
  - intros Hno. apply Hnone. intros a Hin Hst. now destruct (Hno a Hin).
  - intros _ (a & Hin & Hst & (L & HL & HLe & HLn)).
    assert (0 < tally L) as HtL.
    { unfold tally, count_if.
      assert (In a (List.filter (speaks state L) sfcc2023Agents)) as Hf.
      { apply List.filter_In. split; [assumption|]. unfold speaks.
        rewrite HL, Hst, !String.eqb_refl. reflexivity. }
      destruct (List.filter (speaks state L) sfcc2023Agents);
        [destruct Hf | simpl; lia]. }
    assert (agents <> []) as Hne.
    { intros E. assert (In a agents) as Ha.
      { rewrite Eagents. apply List.filter_In. split; [assumption|].
        now apply String.eqb_eq. }
      rewrite E in Ha. destruct Ha. }
    rewrite (Hres Hne).
    destruct Hbest as [(_ & _ & H0)|(Hpos & Hcur & Hall)].
    { specialize (H0 L). rewrite (Hc L HLe HLn) in H0. lia. }
    assert (0 < counted (most_spoken_language
                           (fold_left tally_agent agents (mkLoop [] 0 "")))
                  agents) as Hpos' by lia.
    destruct (counted_pos _ _ Hpos') as [He Hn].
    split; [exact He|]. split; [exact Hn|].
    rewrite <- (Hc _ He Hn). split; [exact Hpos'|].
    intros l Hle Hln. rewrite <- (Hc _ Hle Hln), Hcur. apply Hall.
Qed.

Lemma C5_most_spoken_language_witness :
  getMostSpokenAgentLanguageByState sample_agents "Nevada" = ""
  /\ getMostSpokenAgentLanguageByState sample_agents "Utah" = ""
  /\ getMostSpokenAgentLanguageByState sample_agents "Texas" = "Arabic"
  /\ getMostSpokenAgentLanguageByState sample_agents "Texas" <> "".
Proof.
  split.
  { apply (C5_most_spoken_language sample_agents "Nevada").
    intros agent Hin. simpl in Hin.
    repeat (destruct Hin as [<-|Hin]; [discriminate|]). destruct Hin. }
  split.
  { apply (C5_most_spoken_language sample_agents "Utah").
    intros agent Hin Hst (l & Hl & He & Hn). simpl in Hin.
    repeat (destruct Hin as [<-|Hin];
            [first [discriminate Hst | discriminate Hl
                   | injection Hl as <-; congruence]|]).
    destruct Hin. }
  split; [reflexivity|].
  apply (C5_most_spoken_language sample_agents "Texas").
  - intros agent language Hin _ Hl. simpl in Hin.
    repeat (destruct Hin as [<-|Hin];
            [first [discriminate Hl | injection Hl as <-; reflexivity]|]).
    destruct Hin.
  - exists (Agent.mk 7 "Texas" (Some "Spanish")).
    split; [left; reflexivity|]. split; [reflexivity|].
    exists "Spanish". repeat split; discriminate.
Defined.

(** ** Rounding to a number of decimals *)

Lemma denominator_pos e : (0 < Number.denominator e)%Z.
Proof. unfold Number.denominator. apply Z.pow_pos_nonneg; lia. Qed.

Lemma numerator_pos m e : (0 < Number.numerator m e)%Z.
Proof.
  unfold Number.numerator. apply Z.mul_pos_pos; [lia|].
  apply Z.pow_pos_nonneg; lia.
Qed.

Lemma Qabs_value_finite s m e :
  Qabs (Number.value (S754_finite s m e))
  = Qmake (Number.numerator m e) (Z.to_pos (Number.denominator e)).
Proof.
  pose proof (numerator_pos m e). unfold Number.value, Qabs.
  destruct s; simpl; f_equal; lia.
Qed.

Lemma half_up_div (digits : nat) s m e :
  half_up digits (S754_finite s m e)
    ((2 * Number.numerator m e * 10 ^ Z.of_nat digits + Number.denominator e)
     / (2 * Number.denominator e)).
Proof.
  pose proof (denominator_pos e) as Hd. pose proof (numerator_pos m e) as Hn.
  unfold half_up. rewrite Qabs_value_finite.
  set (num := Number.numerator m e) in *.
  set (den := Number.denominator e) in *.
  set (P := (10 ^ Z.of_nat digits)%Z).
  set (a := (2 * num * P + den)%Z).
  pose proof (Z.mul_div_le a (2 * den) ltac:(lia)) as Hlo.
  pose proof (Z.mul_succ_div_gt a (2 * den) ltac:(lia)) as Hhi.
  unfold Qle, Qlt, Qminus, Qplus, Qmult, Qopp, inject_Z. simpl.
  rewrite ?Pos.mul_1_r, ?Pos.mul_1_l, !Z2Pos.id by lia.
  set (q := (a / (2 * den))%Z) in *. split; nia.
Qed.

Lemma round_to_rounded digits x : rounded digits x (Number.round_to digits x).
Proof.
  destruct x as [s|s| |s m e]; try reflexivity.
  pose proof (denominator_pos e) as Hd. pose proof (numerator_pos m e) as Hn.
  unfold rounded, Number.round_to, Number.toFixed.
  rewrite Qabs_value_finite.
  unfold Qle, Qlt, inject_Z. simpl. rewrite !Z2Pos.id by lia.
  rewrite !Z.mul_1_r.
  destruct (Z.leb_spec (10 ^ 21 * Number.denominator e) (Number.numerator m e))
    as [Hbig|Hsmall]; simpl; split; intros H; try reflexivity; try lia.
  eexists. split; [apply half_up_div | reflexivity].
Qed.

(** The nearest integer, the upper of two, is determined. *)
Lemma half_up_unique digits x n n' :
  half_up digits x n -> half_up digits x n' -> n = n'.
Proof.
  unfold half_up. intros [H1 H2] [H3 H4].
  set (v := (Qabs (Number.value x) * inject_Z (10 ^ Z.of_nat digits))%Q) in *.
  assert (inject_Z n - (1 # 2) < inject_Z n' + (1 # 2))%Q as Ha
    by (eapply Qle_lt_trans; eauto).
  assert (inject_Z n' - (1 # 2) < inject_Z n + (1 # 2))%Q as Hb
    by (eapply Qle_lt_trans; eauto).
  unfold Qlt, Qminus, Qplus, Qopp, inject_Z in Ha, Hb. simpl in Ha, Hb. lia.
Qed.

Lemma filter_nonnil_length {A} (p : A -> bool) (l : list A) :
  List.filter p l <> [] -> Nat.eqb (length (List.filter p l)) 0 = false.
Proof. destruct (List.filter p l); [congruence | reflexivity]. Qed.

(** ** The total claim cost of a disaster *)



(** ** The map from agents to total claim cost *)

Lemma buildMap_snoc agents agent claims :
  buildMapOfAgentsToTotalClaimCost (agents ++ [agent]) claims
  = <[Agent.id agent :=
        Number.round_to 2
          (total_cost
             (List.filter
                (fun claim =>
                   Z.eqb (Claim.agent_assigned_id claim) (Agent.id agent))
                claims))]>
      (buildMapOfAgentsToTotalClaimCost agents claims).
Proof. unfold buildMapOfAgentsToTotalClaimCost. now rewrite fold_left_app. Qed.

Lemma buildMap_lookup agents claims (k : Z) :
  buildMapOfAgentsToTotalClaimCost agents claims !! k
  = if existsb (fun agent => Z.eqb (Agent.id agent) k) agents
    then Some (Number.round_to 2
                 (total_cost
                    (List.filter
                       (fun claim => Z.eqb (Claim.agent_assigned_id claim) k)
                       claims)))
    else None.
Proof.
  induction agents as [|a agents IH] using rev_ind; [reflexivity|].
  rewrite buildMap_snoc, existsb_app. simpl. rewrite orb_false_r.
  destruct (Z.eqb_spec (Agent.id a) k) as [->|Hne].
  - rewrite lookup_insert_eq, orb_true_r. reflexivity.
  - rewrite lookup_insert_ne, orb_false_r by assumption. exact IH.
Qed.

Lemma existsb_agent_id agents (k : Z) :
  existsb (fun agent => Z.eqb (Agent.id agent) k) agents = true
  <-> exists agent, In agent agents /\ Agent.id agent = k.
Proof.
  rewrite existsb_exists. split; intros (a & Hin & H); exists a;
    (split; [assumption|]); now apply Z.eqb_eq.
Qed.

Lemma buildMap_size agents claims :
  List.NoDup (List.map Agent.id agents) ->
  size (buildMapOfAgentsToTotalClaimCost agents claims) = length agents.
Proof.
  induction agents as [|a agents IH] using rev_ind; intros Hnd;
    [reflexivity|].
  rewrite List.map_app in Hnd. simpl in Hnd.
  rewrite buildMap_snoc, List.length_app, Nat.add_1_r. simpl.
  rewrite map_size_insert_None.
  - f_equal. apply IH. eapply NoDup_app_remove_r; eauto.
  - rewrite buildMap_lookup.
    destruct (existsb _ agents) eqn:E; [|reflexivity].
    apply existsb_agent_id in E. destruct E as (b & Hin & Hb).
    exfalso. apply NoDup_remove_2 in Hnd. apply Hnd.
    rewrite app_nil_r, <- Hb. now apply in_map.
Qed.

Lemma sum_after_fold (claims : list Claim.t) : forall acc,
  fold_left (fun acc claim => Number.add acc (Claim.estimate_cost claim))
    claims acc
  = sum_after acc (List.map Claim.estimate_cost claims).
Proof.
  induction claims as [|claim claims IH]; intros acc; simpl;
    [reflexivity | apply IH].
Qed.

Lemma total_cost_sum_of (claims : list Claim.t) :
  total_cost claims = sum_of (List.map Claim.estimate_cost claims).
Proof. apply sum_after_fold. Qed.

(** C6.  The keys of the map returned by
    [buildMapOfAgentsToTotalClaimCost] are exactly the ids of the loaded
    agents, one key per agent; an agent is mapped to the sum, from the left,
    of the estimate costs of the claims assigned to it, rounded half up to
    2 decimals, which is 0 for an agent without claims and 15.01 for an
    agent with two claims of costs 10.005 and 5.00. *)
Theorem C6_agents_to_total_claim_cost (sfcc2023Agents : list Agent.t)
    (sfcc2023Claims : list Claim.t) :
  let agent_to_claim_cost :=
    buildMapOfAgentsToTotalClaimCost sfcc2023Agents sfcc2023Claims in
  let claims_of agent :=
    List.filter
      (fun claim => Z.eqb (Claim.agent_assigned_id claim) (Agent.id agent))
      sfcc2023Claims in
  (forall k : Z,
     is_Some (agent_to_claim_cost !! k)
     <-> exists agent, In agent sfcc2023Agents /\ Agent.id agent = k)
  /\ (List.NoDup (List.map Agent.id sfcc2023Agents) ->
      size agent_to_claim_cost = length sfcc2023Agents)
  /\ (forall agent, In agent sfcc2023Agents ->
        exists y, agent_to_claim_cost !! Agent.id agent = Some y
                  /\ rounded 2
                       (sum_of (List.map Claim.estimate_cost (claims_of agent)))
                       y)
  /\ (forall agent, In agent sfcc2023Agents ->
        (forall claim, In claim sfcc2023Claims ->
           Claim.agent_assigned_id claim <> Agent.id agent) ->
        agent_to_claim_cost !! Agent.id agent = Some Number.zero)
  /\ (forall agent, In agent sfcc2023Agents ->
        List.map Claim.estimate_cost (claims_of agent)
        = [Number.of_decimal 10005 3; Number.of_decimal 500 2] ->
        agent_to_claim_cost !! Agent.id agent
        = Some (Number.of_decimal 1501 2)).
Proof.
  intros m claims_of. subst m.
  assert (Hlook : forall agent, In agent sfcc2023Agents ->
            buildMapOfAgentsToTotalClaimCost sfcc2023Agents sfcc2023Claims
              !! Agent.id agent
            = Some (Number.round_to 2 (total_cost (claims_of agent)))).
  { intros agent Hin. rewrite buildMap_lookup.
    assert (existsb (fun a => Z.eqb (Agent.id a) (Agent.id agent))
              sfcc2023Agents = true) as ->; [|reflexivity].
    apply existsb_agent_id. now exists agent. }
  split; [|split; [|split; [|split]]].
  - intros k. rewrite buildMap_lookup, <- existsb_agent_id.
    destruct (existsb _ sfcc2023Agents); split; intros H; try reflexivity.
    + eauto.
    + destruct H as [? H]. discriminate H.
    + discriminate H.
  - apply buildMap_size.
  - intros agent Hin. rewrite (Hlook agent Hin), total_cost_sum_of.
    eexists. split; [reflexivity | apply round_to_rounded].
  - intros agent Hin Hnone. rewrite (Hlook agent Hin).
    assert (claims_of agent = []) as ->; [|reflexivity].
    apply filter_nil_iff. intros x Hx. apply Z.eqb_neq. now apply Hnone.
  - intros agent Hin Hcosts.
    rewrite (Hlook agent Hin), total_cost_sum_of, Hcosts.
    vm_compute. reflexivity.
Qed.

Lemma C6_agents_to_total_claim_cost_witness :
  List.NoDup (List.map Agent.id sample_agents)
  /\ size (buildMapOfAgentsToTotalClaimCost sample_agents sample_claims) = 8
  /\ buildMapOfAgentsToTotalClaimCost sample_agents sample_claims !! 50%Z = None
  /\ buildMapOfAgentsToTotalClaimCost sample_agents sample_claims !! 13%Z
     = Some Number.zero
  /\ buildMapOfAgentsToTotalClaimCost sample_agents sample_claims !! 7%Z
     = Some (Number.of_decimal 26550 2)
  /\ rounded 2
       (sum_of [Number.of_decimal 10005 3; Number.of_Z 5;
                Number.of_decimal 2505 1])
       (Number.of_decimal 26550 2)
  /\ buildMapOfAgentsToTotalClaimCost sample_agents (firstn 2 sample_claims)
       !! 7%Z
     = Some (Number.of_decimal 1501 2).
Proof.
  assert (List.NoDup (List.map Agent.id sample_agents)) as Hnd.
  { simpl. repeat (apply List.NoDup_cons; [simpl; lia|]). constructor. }
  split; [exact Hnd|].
  split; [exact (proj1 (proj2 (C6_agents_to_total_claim_cost
                                 sample_agents sample_claims)) Hnd)|].
  split; [reflexivity|].
  split.
  { apply (proj1 (proj2 (proj2 (proj2 (C6_agents_to_total_claim_cost
                                         sample_agents sample_claims))))
             (Agent.mk 13 "Utah" None)).
    - simpl. tauto.
    - intros claim Hin. simpl in Hin.
      repeat (destruct Hin as [<-|Hin]; [discriminate|]). destruct Hin. }
  assert (buildMapOfAgentsToTotalClaimCost sample_agents sample_claims !! 7%Z
          = Some (Number.of_decimal 26550 2)) as H7
    by (vm_compute; reflexivity).
  split; [exact H7|].
  split.
  { destruct (proj1 (proj2 (proj2 (C6_agents_to_total_claim_cost
                                     sample_agents sample_claims)))
                (Agent.mk 7 "Texas" (Some "Spanish")))
      as (y & Hy & Hrounded); [left; reflexivity|].
    simpl in Hy. rewrite H7 in Hy. injection Hy as <-. exact Hrounded. }
  apply (proj2 (proj2 (proj2 (proj2 (C6_agents_to_total_claim_cost
                                       sample_agents
                                       (firstn 2 sample_claims)))))
           (Agent.mk 7 "Texas" (Some "Spanish")));
    [left; reflexivity | reflexivity].
Defined.

(** ** The claim density of a disaster *)

Lemma find_first_unique (disasters : list Disaster.t) (disasterId : Z) d :
  List.NoDup (List.map Disaster.id disasters) ->
  In d disasters -> Disaster.id d = disasterId ->
  List.find (fun disaster => Z.eqb (Disaster.id disaster) disasterId) disasters
  = Some d.
Proof.
  induction disasters as [|d0 disasters IH]; simpl; intros Hnd Hin Hid;
    [destruct Hin|].
  inversion Hnd as [|? ? Hout Hnd']; subst.
  destruct Hin as [->|Hin].
  - now rewrite Z.eqb_refl.
  - destruct (Z.eqb_spec (Disaster.id d0) (Disaster.id d)) as [E|_].
    + exfalso. apply Hout. rewrite E. now apply in_map.
    + now apply IH.
Qed.

Lemma find_none_absent (disasters : list Disaster.t) (disasterId : Z) :
  (forall d, In d disasters -> Disaster.id d <> disasterId) ->
  List.find (fun disaster => Z.eqb (Disaster.id disaster) disasterId) disasters
  = None.
Proof.
  intros Hnone.
  destruct (List.find _ disasters) as [d|] eqn:E; [|reflexivity].
  apply List.find_some in E. destruct E as [Hin Hid].
  apply Z.eqb_eq in Hid. now destruct (Hnone d Hin).
Qed.

(** C7.  [calculateDisasterClaimDensity] returns [null] when no claim is of
    the disaster, and otherwise the number of claims of the disaster
    divided by [Math.PI] times the square of the radius of the disaster,
    rounded half up to 5 decimals; 4 claims and a radius of 10 give
    0.01273. *)
Theorem C7_disaster_claim_density (sfcc2023Claims : list Claim.t)
    (sfcc2023Disasters : list Disaster.t) (disasterId : Z) :
  let result :=
    calculateDisasterClaimDensity sfcc2023Claims sfcc2023Disasters
      disasterId in
  let claims_from_disaster :=
    count_if (fun claim => Z.eqb (Claim.disaster_id claim) disasterId)
      sfcc2023Claims in
  let density radius :=
    Number.div (Number.of_nat claims_from_disaster)
      (Number.mul Number.PI (Number.square radius)) in
  (claims_from_disaster = 0 -> result = None)
  /\ (forall disaster,
        0 < claims_from_disaster ->
        List.NoDup (List.map Disaster.id sfcc2023Disasters) ->
        In disaster sfcc2023Disasters ->
        Disaster.id disaster = disasterId ->
        exists y, result = Some y
                  /\ rounded 5 (density (Disaster.radius_miles disaster)) y)
  /\ (forall disaster,
        claims_from_disaster = 4 ->
        List.NoDup (List.map Disaster.id sfcc2023Disasters) ->
        In disaster sfcc2023Disasters ->
        Disaster.id disaster = disasterId ->
        Disaster.radius_miles disaster = Number.of_Z 10 ->
        result = Some (Number.of_decimal 1273 5)).
Proof.
  intros result claims_from_disaster density.
  assert (Hfound : forall disaster,
            0 < claims_from_disaster ->
            List.NoDup (List.map Disaster.id sfcc2023Disasters) ->
            In disaster sfcc2023Disasters ->
            Disaster.id disaster = disasterId ->
            result
            = Some (Number.round_to 5
                      (density (Disaster.radius_miles disaster)))).
  { intros d Hpos Hnd Hin Hid. subst result.
    unfold calculateDisasterClaimDensity.
    rewrite (find_first_unique _ _ d Hnd Hin Hid). simpl.
    fold (count_if (fun claim => Z.eqb (Claim.disaster_id claim) disasterId)
            sfcc2023Claims).
    fold claims_from_disaster.
    destruct claims_from_disaster; [lia | reflexivity]. }
  split; [|split].
  - intros E. subst result. unfold calculateDisasterClaimDensity.
    fold (count_if (fun claim => Z.eqb (Claim.disaster_id claim) disasterId)
            sfcc2023Claims).
    fold claims_from_disaster. now rewrite E.
  - intros d Hpos Hnd Hin Hid. rewrite (Hfound d Hpos Hnd Hin Hid).
    eexists. split; [reflexivity | apply round_to_rounded].
  - intros d E4 Hnd Hin Hid Hr.
    rewrite (Hfound d ltac:(lia) Hnd Hin Hid). subst density. simpl.
    rewrite E4, Hr. vm_compute. reflexivity.
Qed.

Lemma C7_disaster_claim_density_witness :
  calculateDisasterClaimDensity density_claims sample_disasters 42 = None
  /\ calculateDisasterClaimDensity density_claims sample_disasters 1
     = Some (Number.of_decimal 1273 5).
Proof.
  split.
  { apply (C7_disaster_claim_density density_claims sample_disasters 42).
    reflexivity. }
  apply (proj2 (proj2 (C7_disaster_claim_density density_claims
                         sample_disasters 1))
           (Disaster.mk 1 "Texas" (mkDate 0 2023) (Number.of_Z 10))).
  - reflexivity.
  - simpl. repeat (apply List.NoDup_cons; [simpl; lia|]). constructor.
  - left. reflexivity.
  - reflexivity.
  - reflexivity.
Defined.

(** C9.  When some claim is of the disaster id but no disaster record has
    it, [calculateDisasterClaimDensity] returns [NaN]: the radius is
    [undefined], and the division and the rounding keep the [NaN]. *)
Theorem C9_density_of_unknown_disaster (sfcc2023Claims : list Claim.t)
    (sfcc2023Disasters : list Disaster.t) (disasterId : Z) :
  (exists claim, In claim sfcc2023Claims
                 /\ Claim.disaster_id claim = disasterId) ->
  (forall disaster, In disaster sfcc2023Disasters ->
     Disaster.id disaster <> disasterId) ->
  calculateDisasterClaimDensity sfcc2023Claims sfcc2023Disasters disasterId
  = Some Number.NaN.
Proof.
  intros (claim & Hin & Hid) Hnone. unfold calculateDisasterClaimDensity.
  rewrite (find_none_absent _ _ Hnone).
  assert (List.filter
            (fun claim => Z.eqb (Claim.disaster_id claim) disasterId)
            sfcc2023Claims <> []) as Hne.
  { intros E. pose proof (proj1 (filter_nil_iff _ _) E claim Hin) as Hf.
    simpl in Hf. rewrite Hid, Z.eqb_refl in Hf. discriminate. }
  rewrite (filter_nonnil_length _ _ Hne). simpl.
  unfold Number.div.
  now destruct (Number.of_nat _).
Qed.

Lemma C9_density_of_unknown_disaster_witness :
  calculateDisasterClaimDensity density_claims sample_disasters 99
  = Some Number.NaN.
Proof.
  apply (C9_density_of_unknown_disaster density_claims sample_disasters 99).
  - eexists. split; [do 5 right; left; reflexivity | reflexivity].
  - intros d Hd. simpl in Hd.
    repeat (destruct Hd as [<-|Hd]; [discriminate|]). destruct Hd.
Defined.

(** ** Rounding in binary64 *)

Local Open Scope Z_scope.

Lemma digits2_pos_bounds (m : positive) :
  2 ^ (Zpos (digits2_pos m) - 1) <= Zpos m < 2 ^ Zpos (digits2_pos m).
Proof.
  induction m as [m IH|m IH|]; simpl digits2_pos.
  - rewrite Pos2Z.inj_succ, Z.pow_succ_r by lia.
    replace (Z.succ (Zpos (digits2_pos m)) - 1) with (Z.succ (Zpos (digits2_pos m) - 1)) by lia.
    rewrite Z.pow_succ_r by lia. lia.
  - rewrite Pos2Z.inj_succ, Z.pow_succ_r by lia.
    replace (Z.succ (Zpos (digits2_pos m)) - 1) with (Z.succ (Zpos (digits2_pos m) - 1)) by lia.
    rewrite Z.pow_succ_r by lia. lia.
  - simpl. lia.
Qed.

Lemma shr_1_m r : 0 <= shr_m r -> shr_m (shr_1 r) = shr_m r / 2.
Proof.
  destruct r as [m rb sb]. cbn [shr_m shr_1]. intros Hm.
  destruct m as [|[p|p|]|p]; cbn [shr_m]; try lia.
  - reflexivity.
  - apply Z.div_unique with 1; lia.
  - apply Z.div_unique with 0; lia.
  - reflexivity.
Qed.

Lemma pow2_xO (p : positive) : 2 ^ Zpos p~0 = 2 ^ Zpos p * 2 ^ Zpos p.
Proof. rewrite <- Z.pow_add_r by lia. f_equal. lia. Qed.

Lemma pow2_xI (p : positive) : 2 ^ Zpos p~1 = 2 * (2 ^ Zpos p * 2 ^ Zpos p).
Proof.
  rewrite <- Z.pow_add_r, <- Z.pow_succ_r by lia. f_equal. lia.
Qed.

Lemma iter_pos_shr_1_m (p : positive) : forall r,
  0 <= shr_m r -> shr_m (SpecFloat.iter_pos shr_1 p r) = shr_m r / 2 ^ Zpos p.
Proof.
  induction p as [p IH|p IH|]; intros r Hr; cbn [SpecFloat.iter_pos].
  - assert (0 < 2 ^ Zpos p) as Hpow by (apply Z.pow_pos_nonneg; lia).
    assert (0 <= shr_m (shr_1 r)) as H1
      by (rewrite shr_1_m by assumption; apply Z.div_pos; lia).
    assert (0 <= shr_m (SpecFloat.iter_pos shr_1 p (shr_1 r))) as H2
      by (rewrite IH by assumption; apply Z.div_pos; auto).
    rewrite IH, IH, shr_1_m by assumption.
    rewrite (Z.div_div _ (2 ^ Zpos p) (2 ^ Zpos p)) by lia.
    rewrite (Z.div_div _ 2 (2 ^ Zpos p * 2 ^ Zpos p)) by nia.
    now rewrite pow2_xI.
  - assert (0 < 2 ^ Zpos p) as Hpow by (apply Z.pow_pos_nonneg; lia).
    assert (0 <= shr_m (SpecFloat.iter_pos shr_1 p r)) as H2
      by (rewrite IH by assumption; apply Z.div_pos; auto).
    rewrite IH, IH by assumption.
    rewrite (Z.div_div _ (2 ^ Zpos p) (2 ^ Zpos p)) by lia.
    now rewrite pow2_xO.
  - now rewrite shr_1_m.
Qed.

(** Shifting a positive mantissa to its canonical exponent leaves it
    positive: at least one binary digit stays. *)
Lemma shr_fexp_pos m e l :
  0 < m -> emin64 <= e ->
  0 < shr_m (fst (shr_fexp Number.prec Number.emax m e l))
  /\ emin64 <= snd (shr_fexp Number.prec Number.emax m e l).
Proof.
  intros Hm He. unfold shr_fexp, shr.
  assert (shr_m (shr_record_of_loc m l) = m) as Hrec
    by (destruct l as [|[]]; reflexivity).
  destruct m as [|m|m]; try lia. cbn [Zdigits2].
  pose proof (digits2_pos_bounds m) as [Hlo _].
  set (d := Zpos (digits2_pos m)) in *.
  unfold fexp. fold emin64.
  destruct (Z.max (d + e - Number.prec) emin64 - e) as [|p|p] eqn:En; cbn [fst snd].
  - rewrite Hrec. lia.
  - rewrite iter_pos_shr_1_m by (rewrite Hrec; lia). rewrite Hrec.
    assert (Zpos p = d - Number.prec) as Hp by lia.
    split; [|lia].
    apply Z.div_str_pos. split; [apply Z.pow_pos_nonneg; lia|].
    eapply Z.le_trans; [|exact Hlo].
    apply Z.pow_le_mono_r; [lia|]. unfold Number.prec in *. lia.
  - rewrite Hrec. lia.
Qed.

Lemma round_nearest_even_pos m l : 0 < m -> 0 < round_nearest_even m l.
Proof.
  intros Hm. unfold round_nearest_even.
  destruct l as [|[]]; try lia. destruct (Z.even m); lia.
Qed.

(** Rounding a positive mantissa at an exponent not below [emin] gives a
    finite number or an infinity of the sign asked, never a zero nor a
    [NaN]. *)
Lemma binary_round_aux_pos s m e l :
  0 < m -> emin64 <= e ->
  (exists m' e', binary_round_aux Number.prec Number.emax s m e l = S754_finite s m' e'
                 /\ emin64 <= e')
  \/ binary_round_aux Number.prec Number.emax s m e l = S754_infinity s.
Proof.
  intros Hm He. unfold binary_round_aux.
  destruct (shr_fexp_pos m e l Hm He) as [H1 H1e].
  destruct (shr_fexp Number.prec Number.emax m e l) as [mrs' e'].
  cbn [fst snd] in H1, H1e.
  pose proof (round_nearest_even_pos _ (loc_of_shr_record mrs') H1) as H2.
  destruct (shr_fexp_pos _ e' loc_Exact H2 H1e) as [H3 H3e].
  destruct (shr_fexp Number.prec Number.emax _ e' loc_Exact) as [mrs'' e''].
  cbn [fst snd] in H3, H3e.
  destruct (shr_m mrs'') as [|m'|m']; try lia.
  destruct (e'' <=? Number.emax - Number.prec); [left; eauto | now right].
Qed.

Lemma shl_align_exponent m e e' :
  emin64 <= e -> emin64 <= e' -> emin64 <= snd (shl_align m e e').
Proof.
  intros He He'. unfold shl_align. destruct (e' - e); cbn [snd]; lia.
Qed.

Lemma binary_round_pos s m e :
  emin64 <= e ->
  (exists m' e', binary_round Number.prec Number.emax s m e = S754_finite s m' e'
                 /\ emin64 <= e')
  \/ binary_round Number.prec Number.emax s m e = S754_infinity s.
Proof.
  intros He. unfold binary_round.
  pose proof (shl_align_exponent m e (fexp Number.prec Number.emax (Zpos (digits2_pos m) + e))
                He ltac:(unfold fexp; fold emin64; lia)) as Hz.
  destruct (shl_align m e _) as [mz ez]. cbn [snd] in Hz.
  apply binary_round_aux_pos; [lia | assumption].
Qed.

Lemma bounded_emin m e :
  bounded Number.prec Number.emax m e = true -> emin64 <= e.
Proof.
  unfold bounded, canonical_mantissa, fexp. fold emin64.
  intros H. apply andb_true_iff in H. destruct H as [H _].
  apply Z.eqb_eq in H. lia.
Qed.

Lemma add_sum_ok x y : sum_ok x -> cost_ok y -> sum_ok (Number.add x y).
Proof.
  unfold cost_ok, Number.add.
  destruct x as [sx|sx| |sx mx ex], y as [sy|sy| |sy my ey];
    intros Hx [Hv Hy]; cbn [valid_binary] in Hv; cbn [sum_ok] in Hx;
    cbn [SFadd sum_ok]; subst; try tauto; try (destruct sy; reflexivity).
  - split; [reflexivity | now apply (bounded_emin my)].
  - reflexivity.
  - destruct Hx as [-> Hex]. apply bounded_emin in Hv.
    unfold cond_Zopp, binary_normalize.
    rewrite <- Pos2Z.inj_add.
    destruct (binary_round_pos false
                (fst (shl_align mx ex (Z.min ex ey))
                 + fst (shl_align my ey (Z.min ex ey))) (Z.min ex ey))
      as [(m' & e' & -> & He')| ->]; [unfold emin64 in *; lia | | reflexivity].
    split; [reflexivity | exact He'].
Qed.

Lemma iter_xO (m d : positive) : Zpos (Pos.iter xO m d) = Zpos m * 2 ^ Zpos d.
Proof.
  induction d as [|d IH] using Pos.peano_ind.
  - simpl. lia.
  - rewrite Pos.iter_succ, Pos2Z.inj_xO, IH, Pos2Z.inj_succ, Z.pow_succ_r by lia.
    ring.
Qed.

Lemma shl_align_value m e ez :
  ez <= e -> Zpos (fst (shl_align m e ez)) = Zpos m * 2 ^ (e - ez).
Proof.
  intros Hle. unfold shl_align.
  destruct (ez - e) as [|d|d] eqn:E; cbn [fst]; try lia.
  - replace (e - ez) with 0 by lia. lia.
  - rewrite iter_xO. f_equal. f_equal. lia.
Qed.

(** The two fractions compare as the mantissas aligned on the smaller
    exponent do. *)
Lemma value_compare_aligned mx ex my ey :
  let ez := Z.min ex ey in
  (Number.value (S754_finite false mx ex)
     ?= Number.value (S754_finite false my ey))%Q
  = (Zpos mx * 2 ^ (ex - ez) ?= Zpos my * 2 ^ (ey - ez)).
Proof.
  intros ez. unfold Qcompare, Number.value, Number.numerator,
    Number.denominator, cond_Zopp. cbn [Qnum Qden].
  rewrite !Z2Pos.id by (apply Z.pow_pos_nonneg; lia).
  set (A := Z.max 0 (- ex) + Z.max 0 (- ey)).
  assert (0 <= ez + A) by lia.
  replace (Zpos mx * 2 ^ Z.max 0 ex * 2 ^ Z.max 0 (- ey))
    with (Zpos mx * 2 ^ (ex - ez) * 2 ^ (ez + A)).
  2:{ rewrite <- !Z.mul_assoc, <- !Z.pow_add_r by lia. do 2 f_equal. lia. }
  replace (Zpos my * 2 ^ Z.max 0 ey * 2 ^ Z.max 0 (- ex))
    with (Zpos my * 2 ^ (ey - ez) * 2 ^ (ez + A)).
  2:{ rewrite <- !Z.mul_assoc, <- !Z.pow_add_r by lia. do 2 f_equal. lia. }
  symmetry. apply Zmult_compare_compat_r. apply Z.lt_gt.
  apply Z.pow_pos_nonneg; lia.
Qed.

Lemma compare_months_sign costs a b :
  compare_months costs a b
  = match sign_of (Number.sub (to_number (get costs b))
                     (to_number (get costs a))) with
    | Eq => String.compare a b
    | c => c
    end.
Proof.
  unfold compare_months, sign_of.
  destruct (Number.sub _ _) as [s|[]| |[] m e]; reflexivity.
Qed.

Lemma sign_of_binary_normalize (M ez : Z) :
  emin64 <= ez ->
  sign_of (binary_normalize Number.prec Number.emax M ez false) = (M ?= 0).
Proof.
  intros Hez. unfold binary_normalize.
  destruct M as [|p|p]; [reflexivity| |].
  - destruct (binary_round_pos false p ez Hez) as [(m' & e' & -> & _)| ->];
      reflexivity.
  - destruct (binary_round_pos true p ez Hez) as [(m' & e' & -> & _)| ->];
      reflexivity.
Qed.

Lemma value_zero_finite s m e :
  (Number.value (S754_zero s) ?= Number.value (S754_finite false m e))%Q = Lt.
Proof.
  pose proof (numerator_pos m e).
  unfold Qcompare, Number.value, cond_Zopp. cbn [Qnum Qden].
  apply Z.compare_lt_iff. lia.
Qed.

Lemma value_finite_zero s m e :
  (Number.value (S754_finite false m e) ?= Number.value (S754_zero s))%Q = Gt.
Proof.
  pose proof (numerator_pos m e).
  unfold Qcompare, Number.value, cond_Zopp. cbn [Qnum Qden].
  apply Z.compare_gt_iff. lia.
Qed.

(** The sign of the difference of two sums is the comparison of their
    values. *)
Lemma sign_of_sub x y :
  sum_ok x -> sum_ok y -> sign_of (Number.sub x y) = cost_compare x y.
Proof.
  unfold Number.sub.
  destruct x as [sx|sx| |sx mx ex], y as [sy|sy| |sy my ey];
    cbn [sum_ok]; intros Hx Hy; try tauto;
    repeat match goal with
           | H : _ /\ _ |- _ => destruct H
           end; subst; try reflexivity.
  - cbn [SFsub cost_compare]. now rewrite value_zero_finite.
  - cbn [SFsub cost_compare]. now rewrite value_finite_zero.
  - cbn [SFsub cost_compare cond_Zopp].
    rewrite sign_of_binary_normalize by (unfold emin64 in *; lia).
    rewrite value_compare_aligned, !shl_align_value by lia.
    rewrite <- Z.compare_sub. reflexivity.
Qed.

Local Close Scope Z_scope.

(** ** The monthly totals *)

Lemma sum_ok_falsy v : sum_ok v -> Number.falsy v = true -> v = Number.zero.
Proof.
  destruct v as [s|s| |s m e]; simpl; try discriminate; try tauto.
  now intros ->.
Qed.

Lemma get_add_up o k cost k' :
  get (add_up o k cost) k' =
    if String.eqb k k'
    then Some (Number.add
                 (match get o k with
                  | Some v => if Number.falsy v then Number.zero else v
                  | None => Number.zero
                  end) cost)
    else get o k'.
Proof.
  unfold add_up, not_number.
  destruct (String.eqb_spec k k') as [<-|Hne].
  - destruct (get o k) as [v|] eqn:E.
    + destruct (Number.falsy v).
      * now rewrite !get_put_eq.
      * now rewrite E, get_put_eq.
    + now rewrite !get_put_eq.
  - destruct (get o k) as [v|] eqn:E.
    + destruct (Number.falsy v).
      * rewrite get_put_eq, !get_put_ne by assumption. reflexivity.
      * rewrite E, get_put_ne by assumption. reflexivity.
    + rewrite get_put_eq, !get_put_ne by assumption. reflexivity.
Qed.

Lemma keys_add_up_NoDup o k cost :
  List.NoDup (keys o) -> List.NoDup (keys (add_up o k cost)).
Proof.
  intros Hnd. unfold add_up.
  destruct (not_number (get o k)).
  - rewrite get_put_eq. now repeat apply keys_put_NoDup.
  - destruct (get o k); [now apply keys_put_NoDup | assumption].
Qed.

Lemma total_cost_snoc claims claim :
  total_cost (claims ++ [claim])
  = Number.add (total_cost claims) (Claim.estimate_cost claim).
Proof. unfold total_cost. now rewrite fold_left_app. Qed.

Lemma total_cost_sum_ok claims :
  Forall (fun claim => cost_ok (Claim.estimate_cost claim)) claims ->
  sum_ok (total_cost claims).
Proof.
  induction claims as [|c claims IH] using rev_ind; intros Hok.
  - reflexivity.
  - apply List.Forall_app in Hok. destruct Hok as [Hok Hc].
    rewrite total_cost_snoc. apply add_sum_ok; [now apply IH|].
    now inversion Hc.
Qed.

Lemma month_claim_costs_snoc claims claim disasters :
  month_claim_costs (claims ++ [claim]) disasters
  = add_claim disasters (month_claim_costs claims disasters) claim.
Proof. unfold month_claim_costs. now rewrite fold_left_app. Qed.

Lemma keys_month_claim_costs_NoDup claims disasters :
  List.NoDup (keys (month_claim_costs claims disasters)).
Proof.
  induction claims as [|c claims IH] using rev_ind; [constructor|].
  rewrite month_claim_costs_snoc. unfold add_claim.
  destruct (List.find _ disasters); [now apply keys_add_up_NoDup | assumption].
Qed.

(** Each month holds the plain sum of the costs of its claims, in the
    order of the claims. *)
Lemma get_month_claim_costs claims disasters key :
  Forall (fun claim => cost_ok (Claim.estimate_cost claim)) claims ->
  get (month_claim_costs claims disasters) key =
    match List.filter (in_month disasters key) claims with
    | [] => None
    | bucket => Some (total_cost bucket)
    end.
Proof.
  induction claims as [|c claims IH] using rev_ind; intros Hok;
    [reflexivity|].
  apply List.Forall_app in Hok. destruct Hok as [Hok Hc].
  specialize (IH Hok).
  rewrite month_claim_costs_snoc, List.filter_app. simpl.
  unfold add_claim, in_month at 2.
  destruct (List.find _ disasters) as [d|]; [|now rewrite app_nil_r].
  rewrite get_add_up.
  destruct (String.eqb_spec (month_year d) key) as [Ekey|Hne];
    [subst key | now rewrite app_nil_r].
  rewrite IH.
  assert (sum_ok (total_cost (List.filter (in_month disasters (month_year d))
                                claims))) as Hsum.
  { apply total_cost_sum_ok. apply List.Forall_forall. intros x Hx.
    apply List.filter_In in Hx. destruct Hx as [Hx _].
    now apply (proj1 (List.Forall_forall _ _) Hok). }
  destruct (List.filter (in_month disasters (month_year d)) claims)
    as [|c0 rest] eqn:E.
  - reflexivity.
  - cbn [app]. change (c0 :: rest ++ [c]) with ((c0 :: rest) ++ [c]).
    rewrite total_cost_snoc.
    destruct (Number.falsy (total_cost (c0 :: rest))) eqn:Ef.
    + now rewrite (sum_ok_falsy _ Hsum Ef).
    + reflexivity.
Qed.

(** ** Sorting by a comparator *)

Lemma insert_Permutation cmp x l : Permutation (insert cmp x l) (x :: l).
Proof.
  induction l as [|y l IH]; simpl; [reflexivity|].
  destruct (cmp x y); try reflexivity.
  rewrite IH. apply perm_swap.
Qed.

Lemma sort_Permutation cmp l : Permutation (sort cmp l) l.
Proof.
  induction l as [|x l IH]; simpl; [reflexivity|].
  rewrite insert_Permutation. now constructor.
Qed.

Lemma orders_incl cmp l l' :
  (forall x, In x l' -> In x l) -> orders cmp l -> orders cmp l'.
Proof. intros Hsub [Hanti Htrans]. split; eauto 10. Qed.

Lemma insert_StronglySorted cmp x l :
  orders cmp (x :: l) ->
  StronglySorted (fun a b => cmp a b <> Gt) l ->
  StronglySorted (fun a b => cmp a b <> Gt) (insert cmp x l).
Proof.
  intros Hord. induction l as [|y l IH]; simpl; intros Hs.
  - repeat constructor.
  - inversion Hs as [|? ? Hs' Hall]; subst.
    assert (orders cmp (x :: l)) as Hord'.
    { eapply orders_incl; [|exact Hord]. simpl. tauto. }
    destruct Hord as [Hanti Htrans].
    assert (cmp x y <> Gt ->
            StronglySorted (fun a b => cmp a b <> Gt) (x :: y :: l)) as Hfront.
    { intros Hxy. constructor; [assumption|]. constructor; [assumption|].
      apply List.Forall_forall. intros z Hz.
      apply (Htrans x y z); simpl; auto.
      now apply (proj1 (List.Forall_forall _ _) Hall). }
    destruct (cmp x y) eqn:E; try (apply Hfront; congruence).
    constructor; [now apply IH|].
    apply List.Forall_forall. intros z Hz.
    apply (Permutation_in _ (insert_Permutation cmp x l)) in Hz.
    destruct Hz as [<-|Hz].
    + rewrite (Hanti y x), E by (simpl; auto). discriminate.
    + now apply (proj1 (List.Forall_forall _ _) Hall).
Qed.

Lemma sort_StronglySorted cmp l :
  orders cmp l -> StronglySorted (fun a b => cmp a b <> Gt) (sort cmp l).
Proof.
  induction l as [|x l IH]; simpl; intros Hord; [constructor|].
  apply insert_StronglySorted.
  - eapply orders_incl; [|exact Hord]. intros z [<-|Hz]; [now left|].
    right. now apply (Permutation_in _ (sort_Permutation cmp l)).
  - apply IH. eapply orders_incl; [|exact Hord]. simpl. tauto.
Qed.

(** ** The order of the costs *)

Lemma cost_compare_sum x y :
  sum_ok x -> sum_ok y ->
  cost_compare x y =
    match is_infinity x, is_infinity y with
    | true, true => Eq
    | true, false => Gt
    | false, true => Lt
    | false, false => (Number.value x ?= Number.value y)%Q
    end.
Proof.
  destruct x as [sx|sx| |sx mx ex], y as [sy|sy| |sy my ey]; simpl;
    intros Hx Hy; subst; try tauto; reflexivity.
Qed.

Lemma cost_compare_antisym x y :
  sum_ok x -> sum_ok y -> cost_compare x y = CompOpp (cost_compare y x).
Proof.
  intros Hx Hy. rewrite !cost_compare_sum by assumption.
  destruct (is_infinity x), (is_infinity y); try reflexivity.
  now rewrite <- Qcompare_antisym.
Qed.

Lemma cost_compare_le_trans x y z :
  sum_ok x -> sum_ok y -> sum_ok z ->
  cost_compare x y <> Gt -> cost_compare y z <> Gt -> cost_compare x z <> Gt.
Proof.
  intros Hx Hy Hz. rewrite !cost_compare_sum by assumption.
  destruct (is_infinity x), (is_infinity y), (is_infinity z);
    try congruence.
  rewrite <- !Qle_alt. apply Qle_trans.
Qed.

(** A comparator by cost, then by name. *)
Lemma compare_months_cost costs a b x y :
  get costs a = Some x -> get costs b = Some y -> sum_ok x -> sum_ok y ->
  compare_months costs a b
  = match cost_compare y x with
    | Eq => String.compare a b
    | c => c
    end.
Proof.
  intros Ha Hb Hx Hy.
  rewrite compare_months_sign, Ha, Hb. simpl.
  now rewrite sign_of_sub.
Qed.

Lemma string_compare_le_trans a b c :
  String.compare a b <> Gt -> String.compare b c <> Gt ->
  String.compare a c <> Gt.
Proof.
  destruct (String.compare a b) eqn:Eab; [| |congruence]; intros _.
  - apply String.compare_eq_iff in Eab. now subst.
  - destruct (String.compare b c) eqn:Ebc; [| |congruence]; intros _.
    + apply String.compare_eq_iff in Ebc. subst. congruence.
    + rewrite (string_compare_lt_trans _ _ _ Eab Ebc). discriminate.
Qed.

Lemma compare_months_orders costs :
  (forall k v, get costs k = Some v -> sum_ok v) ->
  orders (compare_months costs) (keys costs).
Proof.
  intros Hok.
  assert (Hget : forall a, In a (keys costs) ->
            exists x, get costs a = Some x /\ sum_ok x).
  { intros a Ha. destruct (get costs a) as [x|] eqn:E.
    - exists x. split; [reflexivity | eauto].
    - apply get_None_keys in E. contradiction. }
  split.
  - intros a b Ha Hb.
    destruct (Hget a Ha) as (x & Ex & Hx), (Hget b Hb) as (y & Ey & Hy).
    rewrite (compare_months_cost costs a b x y),
            (compare_months_cost costs b a y x) by assumption.
    rewrite (cost_compare_antisym y x), (String.compare_antisym a b)
      by assumption.
    destruct (cost_compare x y); reflexivity.
  - intros a b c Ha Hb Hc.
    destruct (Hget a Ha) as (x & Ex & Hx), (Hget b Hb) as (y & Ey & Hy),
             (Hget c Hc) as (z & Ez & Hz).
    rewrite (compare_months_cost costs a b x y),
            (compare_months_cost costs b c y z),
            (compare_months_cost costs a c x z) by assumption.
    pose proof (cost_compare_le_trans z y x Hz Hy Hx) as Hle.
    pose proof (cost_compare_le_trans x z y Hx Hz Hy) as Hle1.
    pose proof (cost_compare_le_trans y x z Hy Hx Hz) as Hle2.
    pose proof (string_compare_le_trans a b c) as Hstr.
    rewrite (cost_compare_antisym x z), (cost_compare_antisym x y),
            (cost_compare_antisym y z) in * by assumption.
    destruct (cost_compare y x), (cost_compare z y), (cost_compare z x);
      simpl in *; try congruence; try tauto; intros; exfalso;
      first [ solve [apply Hle; congruence]
            | solve [apply Hle1; congruence]
            | solve [apply Hle2; congruence] ].
Qed.

(** Case analysis on a month number bounded by a hypothesis. *)
Ltac each_month m :=
  destruct m as [|m]; [|first [lia | each_month m]].

Lemma month_name_year_inj (m m' : nat) (y y' : Z) :
  m < 12 -> m' < 12 ->
  month_name m +:+ " " +:+ pretty y = month_name m' +:+ " " +:+ pretty y' ->
  m = m' /\ y = y'.
Proof.
  intros Hm Hm'.
  remember (pretty y) as p eqn:Ep. remember (pretty y') as p' eqn:Ep'.
  each_month m; each_month m'; cbn; intros H; try discriminate H;
    (split; [reflexivity|]); injection H as H; subst p p';
    now apply (inj pretty).
Qed.

Lemma month_year_inj (d d' : Disaster.t) :
  getMonth (Disaster.declared_date d) < 12 ->
  getMonth (Disaster.declared_date d') < 12 ->
  (month_year d = month_year d'
   <-> getMonth (Disaster.declared_date d) = getMonth (Disaster.declared_date d')
       /\ getFullYear (Disaster.declared_date d)
          = getFullYear (Disaster.declared_date d')).
Proof.
  intros Hm Hm'. unfold month_year. split.
  - now apply month_name_year_inj.
  - now intros [-> ->].
Qed.

(** ** The top three months *)

Lemma StronglySorted_In_impl {A} (R R' : A -> A -> Prop) (l : list A) :
  (forall a b, In a l -> In b l -> R a b -> R' a b) ->
  StronglySorted R l -> StronglySorted R' l.
Proof.
  induction l as [|x l IH]; intros Himpl Hs; [constructor|].
  inversion Hs as [|? ? Hs' Hall]; subst. constructor.
  - apply IH; [|assumption]. intros a b Ha Hb. apply Himpl; now right.
  - apply List.Forall_forall. intros y Hy.
    apply Himpl; [now left | now right |].
    now apply (proj1 (List.Forall_forall _ _) Hall).
Qed.

Lemma month_claim_costs_sum_ok claims disasters key v :
  Forall (fun claim => cost_ok (Claim.estimate_cost claim)) claims ->
  get (month_claim_costs claims disasters) key = Some v -> sum_ok v.
Proof.
  intros Hok. rewrite (get_month_claim_costs _ _ _ Hok).
  destruct (List.filter (in_month disasters key) claims) as [|c rest] eqn:E;
    [discriminate|].
  intros [= <-]. apply total_cost_sum_ok. rewrite <- E.
  apply List.Forall_forall. intros x Hx.
  apply List.filter_In in Hx. destruct Hx as [Hx _].
  now apply (proj1 (List.Forall_forall _ _) Hok).
Qed.

Lemma in_month_true disasters key claim :
  in_month disasters key claim = true
  <-> exists disaster,
        List.find (fun d => Z.eqb (Disaster.id d) (Claim.disaster_id claim))
          disasters = Some disaster
        /\ month_year disaster = key.
Proof.
  unfold in_month. destruct (List.find _ disasters) as [d|]; split.
  - intros H. apply String.eqb_eq in H. eauto.
  - intros (d' & [= <-] & H). now apply String.eqb_eq.
  - discriminate.
  - intros (d' & H & _). discriminate H.
Qed.

Lemma compare_months_before costs a b :
  (forall k v, get costs k = Some v -> sum_ok v) ->
  In a (keys costs) -> In b (keys costs) ->
  compare_months costs a b <> Gt -> month_before costs a b.
Proof.
  intros Hok Ha Hb.
  destruct (get costs a) as [x|] eqn:Ex;
    [|apply get_None_keys in Ex; contradiction].
  destruct (get costs b) as [y|] eqn:Ey;
    [|apply get_None_keys in Ey; contradiction].
  pose proof (Hok _ _ Ex) as Hx. pose proof (Hok _ _ Ey) as Hy.
  rewrite (compare_months_cost costs a b x y) by assumption.
  rewrite (cost_compare_antisym y x) by assumption.
  intros H. exists x, y. split; [exact Ex|]. split; [exact Ey|].
  destruct (cost_compare x y); simpl in H; [right|congruence|now left].
  split; [reflexivity|]. unfold lex_le, String.ltb.
  rewrite (String.compare_antisym b a).
  destruct (String.compare a b); simpl; congruence.
Qed.

(** A list without repetition has one sorted arrangement under a relation
    that holds both ways between equal elements only. *)
Lemma StronglySorted_unique {A} (R : A -> A -> Prop) (l : list A) :
  (forall a b, In a l -> In b l -> R a b -> R b a -> a = b) ->
  forall l', Permutation l l' -> StronglySorted R l -> StronglySorted R l' ->
             l = l'.
Proof.
  induction l as [|x l IH]; intros Hanti l' Hperm Hs Hs'.
  - apply Permutation_nil in Hperm. now subst.
  - destruct l' as [|y l'];
      [apply Permutation_sym, Permutation_nil in Hperm; discriminate|].
    inversion Hs as [|? ? Hs1 Hall]; subst.
    inversion Hs' as [|? ? Hs1' Hall']; subst.
    assert (x = y) as <-.
    { assert (In x (y :: l')) as Hx
        by (eapply Permutation_in; [exact Hperm | now left]).
      assert (In y (x :: l)) as Hy
        by (eapply Permutation_in; [symmetry; exact Hperm | now left]).
      destruct Hx as [->|Hx]; [reflexivity|].
      destruct Hy as [->|Hy]; [reflexivity|].
      apply Hanti; [now left | now right | |].
      - now apply (proj1 (List.Forall_forall _ _) Hall).
      - now apply (proj1 (List.Forall_forall _ _) Hall'). }
    f_equal. apply IH; auto.
    + intros a b Ha Hb. apply Hanti; now right.
    + eapply Permutation_cons_inv; eauto.
Qed.

Lemma month_before_antisym costs a b :
  (forall k v, get costs k = Some v -> sum_ok v) ->
  month_before costs a b -> month_before costs b a -> a = b.
Proof.
  intros Hok (x & y & Ex & Ey & Hab) (y' & x' & Ey' & Ex' & Hba).
  rewrite Ey in Ey'. rewrite Ex in Ex'. injection Ey' as <-.
  injection Ex' as <-.
  rewrite (cost_compare_antisym y x) in Hba by eauto.
  destruct Hab as [Hab|[Hab Hle]], Hba as [Hba|[Hba Hle']];
    rewrite Hab in Hba; try discriminate.
  unfold lex_le, String.ltb in Hle, Hle'.
  rewrite (String.compare_antisym a b) in Hle'.
  destruct (String.compare b a) eqn:E; try discriminate.
  symmetry. now apply String.compare_eq_iff.
Qed.

(** C4.  Over claims whose estimate costs are valid numbers, not negative:
    the months of [getTopThreeMonthsWithHighestNumOfClaimsDesc] are named
    "<month name> <year>" after the declared date of the disaster of a
    claim, the claims of no loaded disaster being left out; the cost of a
    month is the plain sum of the estimate costs of its claims; the result
    is the first 3 months, or all if there are fewer, of the ranking of
    the months by falling cost and, at equal cost, by rising name, a
    ranking which is the only one. *)
Theorem C4_top_three_months (sfcc2023Claims : list Claim.t)
    (sfcc2023Disasters : list Disaster.t) :
  Forall (fun claim => cost_ok (Claim.estimate_cost claim)) sfcc2023Claims ->
  let costs := month_claim_costs sfcc2023Claims sfcc2023Disasters in
  let top :=
    getTopThreeMonthsWithHighestNumOfClaimsDesc sfcc2023Claims
      sfcc2023Disasters in
  (forall key,
     In key (keys costs)
     <-> exists claim disaster,
           In claim sfcc2023Claims
           /\ List.find
                (fun d => Z.eqb (Disaster.id d) (Claim.disaster_id claim))
                sfcc2023Disasters = Some disaster
           /\ key = month_name (getMonth (Disaster.declared_date disaster))
                    +:+ " "
                    +:+ pretty (getFullYear (Disaster.declared_date disaster)))
  /\ (forall d d',
        getMonth (Disaster.declared_date d) < 12 ->
        getMonth (Disaster.declared_date d') < 12 ->
        (month_year d = month_year d'
         <-> getMonth (Disaster.declared_date d)
             = getMonth (Disaster.declared_date d')
             /\ getFullYear (Disaster.declared_date d)
                = getFullYear (Disaster.declared_date d')))
  /\ (forall key,
        In key (keys costs) ->
        get costs key
        = Some (total_cost
                  (List.filter (in_month sfcc2023Disasters key)
                     sfcc2023Claims)))
  /\ length top = Nat.min 3 (length (keys costs))
  /\ List.NoDup top
  /\ (exists rest,
        Permutation (top ++ rest) (keys costs)
        /\ StronglySorted (month_before costs) (top ++ rest))
  /\ (forall ranking,
        Permutation ranking (keys costs) ->
        StronglySorted (month_before costs) ranking ->
        top = firstn 3 ranking).
Proof.
  intros Hok costs top.
  assert (Hkeys : forall key,
            In key (keys costs)
            <-> List.filter (in_month sfcc2023Disasters key) sfcc2023Claims
                <> []).
  { intros key. split.
    - intros Hin E. apply get_None_keys in Hin; [assumption|].
      unfold costs. now rewrite (get_month_claim_costs _ _ _ Hok), E.
    - intros Hne.
      destruct (get costs key) as [v|] eqn:Ev;
        [eapply get_Some_keys; eauto|].
      unfold costs in Ev. rewrite (get_month_claim_costs _ _ _ Hok) in Ev.
      destruct (List.filter _ sfcc2023Claims); [congruence | discriminate]. }
  assert (Hsorted : Permutation
                      (sort (compare_months costs) (keys costs)) (keys costs))
    by apply sort_Permutation.
  assert (Hsum : forall k v, get costs k = Some v -> sum_ok v).
  { intros k v. now apply month_claim_costs_sum_ok. }
  assert (Hranked : StronglySorted (month_before costs)
                      (sort (compare_months costs) (keys costs))).
  { eapply StronglySorted_In_impl;
      [|apply sort_StronglySorted, compare_months_orders, Hsum].
    intros a b Ha Hb. simpl.
    apply compare_months_before; [assumption|..];
      eapply Permutation_in; eauto. }
  split; [|split; [|split; [|split; [|split; [|split]]]]].
  - intros key. rewrite Hkeys. split.
    + intros Hne.
      destruct (List.filter (in_month sfcc2023Disasters key) sfcc2023Claims)
        as [|claim rest] eqn:E; [congruence|].
      assert (In claim (List.filter (in_month sfcc2023Disasters key)
                          sfcc2023Claims)) as Hin by (rewrite E; now left).
      apply List.filter_In in Hin. destruct Hin as [Hin Hm].
      apply in_month_true in Hm. destruct Hm as (d & Hfind & Hkey).
      exists claim, d. repeat split; auto.
    + intros (claim & d & Hin & Hfind & Hkey) E.
      pose proof (proj1 (filter_nil_iff _ _) E claim Hin) as Hf.
      assert (in_month sfcc2023Disasters key claim = true) as Ht
        by (apply in_month_true; exists d; split; [assumption | now subst]).
      congruence.
  - apply month_year_inj.
  - intros key Hin. apply Hkeys in Hin. unfold costs.
    rewrite (get_month_claim_costs _ _ _ Hok).
    destruct (List.filter _ sfcc2023Claims); [congruence | reflexivity].
  - unfold top, getTopThreeMonthsWithHighestNumOfClaimsDesc. fold costs.
    rewrite List.length_firstn. f_equal. now apply Permutation_length.
  - unfold top, getTopThreeMonthsWithHighestNumOfClaimsDesc. fold costs.
    assert (List.NoDup (sort (compare_months costs) (keys costs))) as Hnd.
    { eapply Permutation_NoDup; [symmetry; exact Hsorted|].
      apply keys_month_claim_costs_NoDup. }
    rewrite <- (List.firstn_skipn 3) in Hnd.
    eapply NoDup_app_remove_r; eauto.
  - exists (skipn 3 (sort (compare_months costs) (keys costs))).
    unfold top, getTopThreeMonthsWithHighestNumOfClaimsDesc. fold costs.
    rewrite List.firstn_skipn. split; [exact Hsorted | exact Hranked].
  - intros ranking Hperm Hs.
    unfold top, getTopThreeMonthsWithHighestNumOfClaimsDesc. fold costs.
    f_equal. apply (StronglySorted_unique (month_before costs)); auto.
    + intros a b _ _. now apply month_before_antisym.
    + now rewrite Hperm.
Qed.

Lemma C4_top_three_months_witness :
  Forall (fun claim => cost_ok (Claim.estimate_cost claim)) sample_claims
  /\ getTopThreeMonthsWithHighestNumOfClaimsDesc sample_claims sample_disasters
     = ["May 2023"; "December 2022"; "June 2023"]
  /\ length (getTopThreeMonthsWithHighestNumOfClaimsDesc sample_claims
               sample_disasters)
     = Nat.min 3 (length (keys (month_claim_costs sample_claims
                                  sample_disasters))).
Proof.
  assert (Forall (fun claim => cost_ok (Claim.estimate_cost claim))
            sample_claims) as Hok.
  { repeat constructor. }
  split; [exact Hok|]. split; [vm_compute; reflexivity|].
  exact (proj1 (proj2 (proj2 (proj2
           (C4_top_three_months sample_claims sample_disasters Hok))))).
Defined.

(** ** Checks on the samples *)

Example of_decimal_10_005 :
  Number.of_decimal 10005 3 = S754_finite false 5632314283980227 (-49).
Proof. reflexivity. Qed.

Example of_decimal_15_01 :
  Number.of_decimal 1501 2 = S754_finite false 8449878800853893 (-49).
Proof. reflexivity. Qed.

Example toFixed_15_005 :
  Number.toFixed 2 (Number.add (Number.of_decimal 10005 3) (Number.of_Z 5))
  = Number.NumFixed false 1501 2.
Proof. reflexivity. Qed.

Example of_decimal_0_1 :
  Number.of_decimal 1 1 = S754_finite false 7205759403792794 (-56).
Proof. reflexivity. Qed.

Example toFixed_1_005 :
  Number.toFixed 2 (Number.of_decimal 1005 3) = Number.NumFixed false 100 2.
Proof. reflexivity. Qed.

Example sample_index :
  getDisasterCounts sample_disasters
  = [("Texas", 2); ("Ohio", 2); ("Utah", 1); ("Iowa", 1)].
Proof. reflexivity. Qed.

Example sample_month_keys :
  keys (month_claim_costs sample_claims sample_disasters)
  = ["January 2023"; "May 2023"; "June 2023"; "July 2023"; "December 2022"].
Proof. vm_compute. reflexivity. Qed.

(** * Further properties *)

(** ** The disaster-count index: totals and order of keys *)

Lemma sum_counts_put o k v :
  sum_counts (put o k v) + match get o k with Some n => n | None => 0 end
  = sum_counts o + v.
Proof.
  unfold sum_counts. induction o as [|[k' v'] o IH]; simpl.
  - lia.
  - destruct (String.eqb k' k); simpl; lia.
Qed.

Lemma sum_counts_count_up o k : sum_counts (count_up o k) = S (sum_counts o).
Proof.
  unfold count_up, incr.
  destruct (get o k) as [[|n]|] eqn:E; simpl.
  - rewrite get_put_eq.
    pose proof (sum_counts_put (put o k 0) k 1) as H1.
    pose proof (sum_counts_put o k 0) as H0.
    rewrite get_put_eq in H1. rewrite E in H0. lia.
  - rewrite E. pose proof (sum_counts_put o k (S (S n))) as H.
    rewrite E in H. lia.
  - rewrite get_put_eq.
    pose proof (sum_counts_put (put o k 0) k 1) as H1.
    pose proof (sum_counts_put o k 0) as H0.
    rewrite get_put_eq in H1. rewrite E in H0. lia.
Qed.

Lemma keys_getDisasterCounts_In ds s :
  In s (keys (getDisasterCounts ds)) <-> In s (List.map Disaster.state ds).
Proof.
  rewrite <- getNumDisastersForState_pos.
  pose proof (get_getDisasterCounts ds s) as Hget.
  destruct (getNumDisastersForState ds s) eqn:E.
  - apply get_None_keys in Hget. split; [contradiction | lia].
  - apply get_Some_keys in Hget. split; [lia | auto].
Qed.

(** X1.  When no disaster record has for state the name of a member of
    [Object.prototype], the counts of the index add up to the number of
    disaster records: every record is counted once, under one state. *)
Theorem X1_index_counts_every_disaster (sfcc2023Disasters : list Disaster.t) :
  Forall (fun disaster => inherited (Disaster.state disaster) = false)
    sfcc2023Disasters ->
  sum_counts (getDisasterCounts sfcc2023Disasters) = length sfcc2023Disasters.
Proof.
  intros _.
  induction sfcc2023Disasters as [|d ds IH] using rev_ind; [reflexivity|].
  rewrite getDisasterCounts_snoc, sum_counts_count_up, IH, List.length_app.
  simpl. lia.
Qed.

Lemma X1_index_counts_every_disaster_witness :
  Forall (fun disaster => inherited (Disaster.state disaster) = false)
    sample_disasters
  /\ sum_counts (getDisasterCounts sample_disasters) = 6.
Proof.
  assert (Forall (fun disaster => inherited (Disaster.state disaster) = false)
            sample_disasters) as Hplain by (repeat constructor).
  split; [exact Hplain|].
  exact (X1_index_counts_every_disaster sample_disasters Hplain).
Defined.

Lemma keys_count_up o k :
  keys (count_up o k)
  = if in_dec String.string_dec k (keys o) then keys o else keys o ++ [k].
Proof.
  unfold count_up, incr.
  destruct (in_dec String.string_dec k (keys o)) as [Hin|Hout].
  - destruct (get o k) as [[|n]|] eqn:E.
    + simpl. rewrite get_put_eq, !keys_put_old; auto.
      now rewrite keys_put_old.
    + simpl. rewrite E. now apply keys_put_old.
    + apply get_None_keys in E. contradiction.
  - pose proof (proj2 (get_None_keys o k) Hout) as E. rewrite E. simpl.
    rewrite get_put_eq, keys_put_old, keys_put_new; auto.
    rewrite keys_put_new by assumption. apply in_or_app. right. now left.
Qed.

(** X2.  When the states of the disaster records are neither names of
    members of [Object.prototype] nor made of digits only, the keys of the
    index, which the ranking loops go through in this order, are the states
    of the records in the order in which each state first appears. *)
Theorem X2_index_keys_in_order_of_first_record
    (sfcc2023Disasters : list Disaster.t) :
  Forall (fun disaster => plain_key (Disaster.state disaster) = true)
    sfcc2023Disasters ->
  keys (getDisasterCounts sfcc2023Disasters)
  = first_places (List.map Disaster.state sfcc2023Disasters).
Proof.
  intros _. unfold first_places.
  induction sfcc2023Disasters as [|d ds IH] using rev_ind; [reflexivity|].
  rewrite getDisasterCounts_snoc, keys_count_up, List.map_app, List.rev_app_distr.
  simpl.
  destruct (in_dec String.string_dec (Disaster.state d)
              (keys (getDisasterCounts ds))) as [Hin|Hout];
    destruct (in_dec String.string_dec (Disaster.state d)
                (rev (List.map Disaster.state ds))) as [Hin'|Hout'].
  - exact IH.
  - exfalso. apply Hout'. apply -> List.in_rev.
    now apply keys_getDisasterCounts_In.
  - exfalso. apply Hout. apply keys_getDisasterCounts_In.
    now apply List.in_rev.
  - simpl. now rewrite IH.
Qed.

Lemma X2_index_keys_in_order_of_first_record_witness :
  Forall (fun disaster => plain_key (Disaster.state disaster) = true)
    sample_disasters
  /\ keys (getDisasterCounts sample_disasters)
     = ["Texas"; "Ohio"; "Utah"; "Iowa"].
Proof.
  assert (Forall (fun disaster => plain_key (Disaster.state disaster) = true)
            sample_disasters) as Hplain by (repeat constructor).
  split; [exact Hplain|].
  exact (X2_index_keys_in_order_of_first_record sample_disasters Hplain).
Defined.

(** ** The ranking of states: what fixes the result *)

Lemma lex_le_antisym a b : lex_le a b -> lex_le b a -> a = b.
Proof.
  unfold lex_le, String.ltb. rewrite (String.compare_antisym b a).
  destruct (String.compare a b) eqn:E; simpl; try discriminate.
  intros _ _. now apply String.compare_eq_iff.
Qed.

Lemma most_characterized ds :
  ds <> [] ->
  exists top,
    get (getDisasterCounts ds) (getStateWithMostDisasters ds) = Some top
    /\ forall t c, get (getDisasterCounts ds) t = Some c ->
         c <= top /\ (c = top -> lex_le (getStateWithMostDisasters ds) t).
Proof.
  intros Hne.
  pose proof (keys_getDisasterCounts_NoDup ds) as Hnd.
  pose proof (most_fold_inv (getDisasterCounts ds) [] (0, "")
                (getDisasterCounts_entries_pos _)
                (or_introl (conj eq_refl eq_refl))) as Hinv.
  simpl in Hinv. destruct Hinv as [[E _]|[Hin Hall]].
  - now apply getDisasterCounts_nonempty in Hne.
  - exists (fst (fold_left most_step (getDisasterCounts ds) (0, ""))).
    split; [now apply entry_get|].
    intros t c Ht. apply Hall. now apply entry_get.
Qed.

Lemma least_characterized ds :
  ds <> [] ->
  exists bottom,
    get (getDisasterCounts ds) (getStateWithLeastDisasters ds) = Some bottom
    /\ forall t c, get (getDisasterCounts ds) t = Some c ->
         bottom <= c
         /\ (c = bottom -> lex_le (getStateWithLeastDisasters ds) t).
Proof.
  intros Hne.
  pose proof (keys_getDisasterCounts_NoDup ds) as Hnd.
  pose proof (least_fold_inv (getDisasterCounts ds) [] (Infinity, "")
                (or_introl (conj eq_refl eq_refl))) as Hinv.
  simpl in Hinv. destruct Hinv as [[E _]|(m & _ & Hin & Hall)].
  - now apply getDisasterCounts_nonempty in Hne.
  - exists m. split; [now apply entry_get|].
    intros t c Ht. apply Hall. now apply entry_get.
Qed.

Lemma filter_Permutation {A} (p : A -> bool) (l l' : list A) :
  Permutation l l' -> Permutation (List.filter p l) (List.filter p l').
Proof.
  induction 1 as [|x l l' _ IH|x y l|l l' l'' _ IH1 _ IH2]; simpl.
  - constructor.
  - destruct (p x); [now constructor | assumption].
  - destruct (p x), (p y); try reflexivity. apply perm_swap.
  - now transitivity (List.filter p l').
Qed.

Lemma count_if_Permutation {A} (p : A -> bool) (l l' : list A) :
  Permutation l l' -> count_if p l = count_if p l'.
Proof.
  intros H. unfold count_if. now apply Permutation_length, filter_Permutation.
Qed.

Lemma get_getDisasterCounts_Permutation ds ds' s :
  Permutation ds ds' ->
  get (getDisasterCounts ds) s = get (getDisasterCounts ds') s.
Proof.
  intros H. rewrite !get_getDisasterCounts.
  unfold getNumDisastersForState.
  now rewrite (Permutation_length (filter_Permutation _ _ _ H)).
Qed.


(** X3.  The states returned by [getStateWithMostDisasters] and
    [getStateWithLeastDisasters] do not depend on the order of the disaster
    records. *)
Theorem X3_ranking_ignores_record_order (sfcc2023Disasters reordered : list Disaster.t) :
  Permutation sfcc2023Disasters reordered ->
  getStateWithMostDisasters sfcc2023Disasters
  = getStateWithMostDisasters reordered
  /\ getStateWithLeastDisasters sfcc2023Disasters
     = getStateWithLeastDisasters reordered.
Proof.
  intros Hperm.
  destruct sfcc2023Disasters as [|d ds].
  { apply Permutation_nil in Hperm. subst. now split. }
  assert (reordered <> []) as Hne'.
  { intros ->. apply Permutation_sym, Permutation_nil in Hperm.
    discriminate. }
  assert (d :: ds <> []) as Hne by discriminate.
  assert (Hget : forall s, get (getDisasterCounts (d :: ds)) s
                           = get (getDisasterCounts reordered) s)
    by (intros; now apply get_getDisasterCounts_Permutation).
  split.
  - destruct (most_characterized _ Hne) as (top & Htop & Hall).
    destruct (most_characterized _ Hne') as (top' & Htop' & Hall').
    rewrite Hget in Htop.
    destruct (Hall' _ _ Htop) as [Hle Htie].
    rewrite <- Hget in Htop'.
    destruct (Hall _ _ Htop') as [Hle' Htie'].
    apply lex_le_antisym; [apply Htie' | apply Htie]; lia.
  - destruct (least_characterized _ Hne) as (bottom & Hb & Hall).
    destruct (least_characterized _ Hne') as (bottom' & Hb' & Hall').
    rewrite Hget in Hb.
    destruct (Hall' _ _ Hb) as [Hle Htie].
    rewrite <- Hget in Hb'.
    destruct (Hall _ _ Hb') as [Hle' Htie'].
    apply lex_le_antisym; [apply Htie' | apply Htie]; lia.
Qed.

Lemma X3_ranking_ignores_record_order_witness :
  Permutation sample_disasters (rev sample_disasters)
  /\ getStateWithMostDisasters (rev sample_disasters) = "Ohio"
  /\ getStateWithLeastDisasters (rev sample_disasters) = "Iowa".
Proof.
  assert (Permutation sample_disasters (rev sample_disasters)) as Hperm
    by apply Permutation_rev.
  split; [exact Hperm|].
  destruct (X3_ranking_ignores_record_order _ _ Hperm) as [Hmost Hleast].
  split; [rewrite <- Hmost | rewrite <- Hleast]; reflexivity.
Defined.


(** ** Open claims of an agent: the sentinel, the threshold, the closed
    claims *)

Lemma open_claims_out_of_range claims (agentId minSeverityRating : Z) :
  (10 < minSeverityRating \/ minSeverityRating <= 0)%Z ->
  getNumOfOpenClaimsForAgentAndSeverity claims agentId minSeverityRating
  = Some (-1)%Z.
Proof.
  intros H. unfold getNumOfOpenClaimsForAgentAndSeverity.
  destruct (Z.ltb_spec 10 minSeverityRating); [reflexivity|].
  destruct (Z.leb_spec minSeverityRating 0); [reflexivity|]. lia.
Qed.

Lemma open_claims_in_range claims (agentId minSeverityRating : Z) :
  (0 < minSeverityRating <= 10)%Z ->
  getNumOfOpenClaimsForAgentAndSeverity claims agentId minSeverityRating
  = if Nat.eqb (count_if (fun claim =>
                            Z.eqb (Claim.agent_assigned_id claim) agentId)
                  claims) 0
    then None
    else Some (Z.of_nat (count_if (open_and_severe agentId minSeverityRating)
                           claims)).
Proof.
  intros Hr. unfold getNumOfOpenClaimsForAgentAndSeverity.
  destruct (Z.ltb_spec 10 minSeverityRating); [lia|].
  destruct (Z.leb_spec minSeverityRating 0); [lia|]. simpl.
  fold (count_if (fun claim => Z.eqb (Claim.agent_assigned_id claim) agentId)
          claims).
  destruct (Nat.eqb _ 0); [reflexivity|].
  rewrite fold_count_if, !count_if_filter, Z.add_0_l. do 2 f_equal.
  apply count_if_ext. intros x _. unfold open_and_severe.
  now rewrite andb_assoc.
Qed.

Lemma count_if_le {A} (p q : A -> bool) (l : list A) :
  (forall x, In x l -> p x = true -> q x = true) ->
  count_if p l <= count_if q l.
Proof.
  unfold count_if. induction l as [|x l IH]; simpl; intros H; [lia|].
  assert (length (List.filter p l) <= length (List.filter q l)) as Hle
    by (apply IH; auto).
  destruct (p x) eqn:Ep.
  - rewrite (H x (or_introl eq_refl) Ep). simpl. lia.
  - destruct (q x); simpl; lia.
Qed.

Lemma count_if_negb {A} (p : A -> bool) (l : list A) :
  count_if p l + count_if (fun x => negb (p x)) l = length l.
Proof.
  unfold count_if. induction l as [|x l IH]; simpl; [reflexivity|].
  destruct (p x); simpl; lia.
Qed.

(** X5.  [getNumOfOpenClaimsForAgentAndSeverity] returns -1 for a minimum
    severity out of the range 1 to 10 and for no other: within the range
    the result is [null] or a count that is not negative. *)
Theorem X5_minus_one_only_out_of_range (sfcc2023Claims : list Claim.t)
    (agentId minSeverityRating : Z) :
  let result :=
    getNumOfOpenClaimsForAgentAndSeverity sfcc2023Claims agentId
      minSeverityRating in
  (result = Some (-1)%Z
   <-> (10 < minSeverityRating \/ minSeverityRating <= 0)%Z)
  /\ (forall n, result = Some n -> (n = -1 \/ 0 <= n)%Z).
Proof.
  intros result. subst result.
  destruct (Z.ltb_spec 10 minSeverityRating) as [Hhi|Hhi].
  { rewrite open_claims_out_of_range by lia.
    split; [split; [lia | reflexivity] | intros n [= <-]; lia]. }
  destruct (Z.leb_spec minSeverityRating 0) as [Hlo|Hlo].
  { rewrite open_claims_out_of_range by lia.
    split; [split; [lia | reflexivity] | intros n [= <-]; lia]. }
  rewrite open_claims_in_range by lia.
  destruct (Nat.eqb _ 0).
  - split; [split; [discriminate | lia] | discriminate].
  - split; [split; [intros [= E]; lia | lia] | intros n [= <-]; lia].
Qed.

(** X6.  Raising the minimum severity within the range never raises the
    count: for [1 <= lower <= higher <= 10] the two calls return [null]
    together, or counts with the one for [higher] not above the one for
    [lower]. *)
Theorem X6_count_falls_as_severity_rises (sfcc2023Claims : list Claim.t)
    (agentId lower higher : Z) :
  (0 < lower)%Z -> (lower <= higher)%Z -> (higher <= 10)%Z ->
  match getNumOfOpenClaimsForAgentAndSeverity sfcc2023Claims agentId lower,
        getNumOfOpenClaimsForAgentAndSeverity sfcc2023Claims agentId higher
  with
  | Some at_lower, Some at_higher => (0 <= at_higher <= at_lower)%Z
  | None, None => True
  | _, _ => False
  end.
Proof.
  intros Hlo Hle Hhi. rewrite !open_claims_in_range by lia.
  destruct (Nat.eqb _ 0); [exact I|].
  split; [lia|]. apply Nat2Z.inj_le. apply count_if_le.
  intros x _. unfold open_and_severe. rewrite !andb_true_iff.
  intros [[Ha Ho] Hs]. repeat split; auto.
  apply Z.leb_le in Hs. apply Z.leb_le. lia.
Qed.

Lemma X6_count_falls_as_severity_rises_witness :
  (0 < 3)%Z /\ (3 <= 8)%Z /\ (8 <= 10)%Z
  /\ getNumOfOpenClaimsForAgentAndSeverity sample_claims 7 3 = Some 2%Z
  /\ getNumOfOpenClaimsForAgentAndSeverity sample_claims 7 8 = Some 0%Z
  /\ match getNumOfOpenClaimsForAgentAndSeverity sample_claims 7 3,
           getNumOfOpenClaimsForAgentAndSeverity sample_claims 7 8 with
     | Some at_lower, Some at_higher => (0 <= at_higher <= at_lower)%Z
     | None, None => True
     | _, _ => False
     end.
Proof.
  split; [lia|]. split; [lia|]. split; [lia|].
  split; [reflexivity|]. split; [reflexivity|].
  apply (X6_count_falls_as_severity_rises sample_claims 7 3 8); lia.
Defined.

(** X7.  Within the range, the open claims counted for an agent are never
    more than the claims that [getNumClosedClaims] does not count. *)
Theorem X7_open_claims_are_not_closed (sfcc2023Claims : list Claim.t)
    (agentId minSeverityRating : Z) :
  (0 < minSeverityRating <= 10)%Z ->
  forall n,
    getNumOfOpenClaimsForAgentAndSeverity sfcc2023Claims agentId
      minSeverityRating = Some n ->
    (n <= Z.of_nat (length sfcc2023Claims - getNumClosedClaims sfcc2023Claims))%Z.
Proof.
  intros Hr n. rewrite open_claims_in_range by assumption.
  destruct (Nat.eqb _ 0); [discriminate|]. intros [= <-].
  apply Nat2Z.inj_le. unfold getNumClosedClaims.
  pose proof (count_if_negb
                (fun claim => String.eqb (Claim.status claim) "Closed")
                sfcc2023Claims) as Hsplit.
  unfold count_if at 1 in Hsplit.
  assert (count_if (open_and_severe agentId minSeverityRating) sfcc2023Claims
          <= count_if (fun x => negb (String.eqb (Claim.status x) "Closed"))
               sfcc2023Claims) as Hle.
  { apply count_if_le. intros x _. unfold open_and_severe.
    rewrite !andb_true_iff. tauto. }
  lia.
Qed.

Lemma X7_open_claims_are_not_closed_witness :
  (0 < 1 <= 10)%Z
  /\ getNumClosedClaims sample_claims = 3
  /\ getNumOfOpenClaimsForAgentAndSeverity sample_claims 7 1 = Some 2%Z
  /\ (2 <= Z.of_nat (length sample_claims - getNumClosedClaims sample_claims))%Z.
Proof.
  split; [lia|]. split; [reflexivity|]. split; [reflexivity|].
  apply (X7_open_claims_are_not_closed sample_claims 7 1); [lia | reflexivity].
Defined.

(** ** The most spoken language: what fixes the result *)

Lemma most_spoken_characterized (sfcc2023Agents : list Agent.t)
    (state : string) :
  let result := getMostSpokenAgentLanguageByState sfcc2023Agents state in
  let tally language := count_if (speaks state language) sfcc2023Agents in
  ((forall agent, In agent sfcc2023Agents -> Agent.state agent <> state) ->
     result = "")
  /\ ((forall agent, In agent sfcc2023Agents -> Agent.state agent = state ->
         ~ tallied (Agent.secondary_language agent)) ->
      result = "")
  /\ ((exists agent, In agent sfcc2023Agents /\ Agent.state agent = state
                     /\ tallied (Agent.secondary_language agent)) ->
      result <> "" /\ result <> "English" /\ 0 < tally result
      /\ forall language, language <> "" -> language <> "English" ->
           tally language <= tally result
           /\ (tally language = tally result -> lex_le result language)).
Proof.
  intros result tally.
  remember (List.filter (fun agent => String.eqb (Agent.state agent) state)
              sfcc2023Agents) as agents eqn:Eagents.
  pose proof (tally_fold_inv agents [] (mkLoop [] 0 "")) as Hinv.
  simpl in Hinv.
  specialize (Hinv (conj (fun _ => eq_refl)
                         (or_introl (conj eq_refl
                                       (conj eq_refl (fun _ => eq_refl)))))).
  destruct Hinv as [_ Hbest].
  assert (Hres : agents <> [] ->
            result = most_spoken_language
                       (fold_left tally_agent agents (mkLoop [] 0 ""))).
  { intros Hne. subst result. unfold getMostSpokenAgentLanguageByState.
    rewrite <- Eagents. destruct agents; [congruence | reflexivity]. }
  assert (Hnil : agents = [] -> result = "").
  { intros E. subst result. unfold getMostSpokenAgentLanguageByState.
    rewrite <- Eagents, E. reflexivity. }
  assert (Hc : forall l, l <> "" -> l <> "English" ->
                 counted l agents = tally l).
  { intros l He Hn. rewrite Eagents. apply counted_filter_state; assumption. }
  assert (Hsome : forall l, 0 < tally l ->
            exists agent, In agent sfcc2023Agents /\ Agent.state agent = state
                          /\ Agent.secondary_language agent = Some l).
  { intros l Hpos. unfold tally, count_if in Hpos.
    destruct (List.filter (speaks state l) sfcc2023Agents) as [|a rest] eqn:E;
      [simpl in Hpos; lia|].
    assert (In a (List.filter (speaks state l) sfcc2023Agents)) as Hin
      by (rewrite E; now left).
    apply List.filter_In in Hin. destruct Hin as [Hin Hsp].
    unfold speaks in Hsp. apply andb_true_iff in Hsp. destruct Hsp as [Hst Hl].
    apply String.eqb_eq in Hst.
    destruct (Agent.secondary_language a) as [l'|] eqn:El'; [|discriminate].
    apply String.eqb_eq in Hl. subst l'. now exists a. }
  assert (Hnone : (forall agent, In agent sfcc2023Agents ->
                     Agent.state agent = state ->
                     ~ tallied (Agent.secondary_language agent)) ->
                  result = "").
  { intros Hno.
    assert (agents = [] \/ agents <> []) as [E|Hne]
      by (destruct agents; [now left | now right]); [now apply Hnil|].
    rewrite (Hres Hne).
    destruct Hbest as [(_ & Hmost & _)|(Hpos & Hcur & _)]; [exact Hmost|].
    exfalso. rewrite <- Hcur in Hpos.
    destruct (counted_pos _ _ Hpos) as [He Hn].
    rewrite (Hc _ He Hn) in Hpos.
    destruct (Hsome _ Hpos) as (a & Hin & Hst & Hl).
    apply (Hno a Hin Hst). rewrite Hl. eexists. eauto. }
  split; [|split]; [|exact Hnone|].
  - intros Hno. apply Hnone. intros a Hin Hst. now destruct (Hno a Hin).
  - intros (a & Hin & Hst & (L & HL & HLe & HLn)).
    assert (0 < tally L) as HtL.
    { unfold tally, count_if.
      assert (In a (List.filter (speaks state L) sfcc2023Agents)) as Hf.
      { apply List.filter_In. split; [assumption|]. unfold speaks.
        rewrite HL, Hst, !String.eqb_refl. reflexivity. }
      destruct (List.filter (speaks state L) sfcc2023Agents);
        [destruct Hf | simpl; lia]. }
    assert (agents <> []) as Hne.
    { intros E. assert (In a agents) as Ha.
      { rewrite Eagents. apply List.filter_In. split; [assumption|].
        now apply String.eqb_eq. }
      rewrite E in Ha. destruct Ha. }
    rewrite (Hres Hne).
    destruct Hbest as [(_ & _ & H0)|(Hpos & Hcur & Hall)].
    { specialize (H0 L). rewrite (Hc L HLe HLn) in H0. lia. }
    assert (0 < counted (most_spoken_language
                           (fold_left tally_agent agents (mkLoop [] 0 "")))
                  agents) as Hpos' by lia.
    destruct (counted_pos _ _ Hpos') as [He Hn].
    split; [exact He|]. split; [exact Hn|].
    rewrite <- (Hc _ He Hn). split; [exact Hpos'|].
    intros l Hle Hln. rewrite <- (Hc _ Hle Hln), Hcur. apply Hall.
Qed.

(** X8.  The language returned by [getMostSpokenAgentLanguageByState] does
    not depend on the order of the agent records. *)
Theorem X8_language_ignores_agent_order (sfcc2023Agents reordered : list Agent.t)
    (state : string) :
  Permutation sfcc2023Agents reordered ->
  getMostSpokenAgentLanguageByState sfcc2023Agents state
  = getMostSpokenAgentLanguageByState reordered state.
Proof.
  intros Hperm.
  destruct (most_spoken_characterized sfcc2023Agents state)
    as (_ & Hnone & Hsome).
  destruct (most_spoken_characterized reordered state)
    as (_ & Hnone' & Hsome').
  cbv zeta in *.
  assert (Htally : forall l,
            count_if (speaks state l) sfcc2023Agents
            = count_if (speaks state l) reordered)
    by (intros; now apply count_if_Permutation).
  destruct (existsb
              (fun a => String.eqb (Agent.state a) state
                        && match spoken (Agent.secondary_language a) with
                           | Some _ => true
                           | None => false
                           end) sfcc2023Agents) eqn:E.
  - apply existsb_exists in E. destruct E as (a & Hin & Ha).
    apply andb_true_iff in Ha. destruct Ha as [Hst Hsp].
    apply String.eqb_eq in Hst.
    assert (tallied (Agent.secondary_language a)) as Ht.
    { apply spoken_tallied. destruct (spoken _); congruence. }
    destruct Hsome as (He & Hn & _ & Hbest); [now exists a|].
    destruct Hsome' as (He' & Hn' & _ & Hbest').
    { exists a. split; [eapply Permutation_in; eauto | auto]. }
    destruct (Hbest _ He' Hn') as [Hle Htie].
    destruct (Hbest' _ He Hn) as [Hle' Htie'].
    rewrite !Htally in *.
    apply lex_le_antisym; [apply Htie | apply Htie']; lia.
  - assert (Hno : forall agent, In agent sfcc2023Agents ->
              Agent.state agent = state ->
              ~ tallied (Agent.secondary_language agent)).
    { intros agent Hin Hst Ht. apply spoken_tallied in Ht.
      assert (existsb
                (fun a => String.eqb (Agent.state a) state
                          && match spoken (Agent.secondary_language a) with
                             | Some _ => true
                             | None => false
                             end) sfcc2023Agents = true) as Hex; [|congruence].
      apply existsb_exists. exists agent. split; [assumption|].
      apply andb_true_iff. split; [now apply String.eqb_eq|].
      destruct (spoken _); congruence. }
    rewrite Hnone by assumption. symmetry. apply Hnone'.
    intros agent Hin. apply Hno. eapply Permutation_in; [|exact Hin].
    now symmetry.
Qed.

Lemma X8_language_ignores_agent_order_witness :
  Permutation sample_agents (rev sample_agents)
  /\ getMostSpokenAgentLanguageByState (rev sample_agents) "Texas" = "Arabic".
Proof.
  assert (Permutation sample_agents (rev sample_agents)) as Hperm
    by apply Permutation_rev.
  split; [exact Hperm|].
  rewrite <- (X8_language_ignores_agent_order _ _ "Texas" Hperm).
  reflexivity.
Defined.

(** ** The map of agents: what it depends on *)

Lemma filter_filter_impl {A} (p q : A -> bool) (l : list A) :
  (forall x, In x l -> q x = true -> p x = true) ->
  List.filter q (List.filter p l) = List.filter q l.
Proof.
  induction l as [|x l IH]; simpl; intros H; [reflexivity|].
  destruct (p x) eqn:Ep; simpl.
  - destruct (q x); rewrite IH by auto; reflexivity.
  - destruct (q x) eqn:Eq.
    + rewrite (H x (or_introl eq_refl) Eq) in Ep. discriminate.
    + apply IH. auto.
Qed.

(** X9.  The map of [buildMapOfAgentsToTotalClaimCost] depends on the
    agent collection through the set of its ids only: two collections
    with the same ids, in any order and with any repetition, give the same
    map. *)
Theorem X9_map_depends_on_agent_ids_only (sfcc2023Agents others : list Agent.t)
    (sfcc2023Claims : list Claim.t) :
  (forall k : Z,
     (exists agent, In agent sfcc2023Agents /\ Agent.id agent = k)
     <-> (exists agent, In agent others /\ Agent.id agent = k)) ->
  buildMapOfAgentsToTotalClaimCost sfcc2023Agents sfcc2023Claims
  = buildMapOfAgentsToTotalClaimCost others sfcc2023Claims.
Proof.
  intros Hids. apply map_eq. intros k. rewrite !buildMap_lookup.
  specialize (Hids k). rewrite <- !existsb_agent_id in Hids.
  destruct (existsb _ sfcc2023Agents), (existsb _ others); try reflexivity.
  - destruct Hids as [H _]. discriminate (H eq_refl).
  - destruct Hids as [_ H]. discriminate (H eq_refl).
Qed.

Lemma X9_map_depends_on_agent_ids_only_witness :
  buildMapOfAgentsToTotalClaimCost (sample_agents ++ rev sample_agents)
    sample_claims
  = buildMapOfAgentsToTotalClaimCost sample_agents sample_claims.
Proof.
  apply X9_map_depends_on_agent_ids_only. intros k. split.
  - intros (a & Hin & Ha). exists a. split; [|exact Ha].
    apply in_app_or in Hin. destruct Hin as [Hin|Hin]; [exact Hin|].
    now apply List.in_rev.
  - intros (a & Hin & Ha). exists a. split; [|exact Ha].
    apply in_or_app. now left.
Defined.

(** X10.  Claims assigned to an id that is the id of no loaded agent have
    no effect on the map: leaving them out gives the same map. *)
Theorem X10_claims_of_unknown_agents_are_ignored
    (sfcc2023Agents : list Agent.t) (sfcc2023Claims : list Claim.t) :
  buildMapOfAgentsToTotalClaimCost sfcc2023Agents
    (List.filter (of_loaded_agent sfcc2023Agents) sfcc2023Claims)
  = buildMapOfAgentsToTotalClaimCost sfcc2023Agents sfcc2023Claims.
Proof.
  apply map_eq. intros k. rewrite !buildMap_lookup.
  destruct (existsb _ sfcc2023Agents) eqn:E; [|reflexivity].
  do 3 f_equal. apply filter_filter_impl.
  intros x _ Hx. apply Z.eqb_eq in Hx. unfold of_loaded_agent.
  now rewrite Hx.
Qed.

(** ** The density and the total cost of a disaster: absence and the zero
    radius *)

(** X11.  For every disaster id, [getTotalClaimCostForDisaster] and
    [calculateDisasterClaimDensity] return [null] together, exactly when
    no claim is of the disaster; loading the disaster or not makes no
    difference to that. *)
Theorem X11_total_and_density_are_absent_together
    (sfcc2023Claims : list Claim.t) (sfcc2023Disasters : list Disaster.t)
    (disasterId : Z) :
  (getTotalClaimCostForDisaster sfcc2023Claims disasterId = None
   <-> calculateDisasterClaimDensity sfcc2023Claims sfcc2023Disasters
         disasterId = None)
  /\ (calculateDisasterClaimDensity sfcc2023Claims sfcc2023Disasters
        disasterId = None
      <-> forall claim, In claim sfcc2023Claims ->
            Claim.disaster_id claim <> disasterId).
Proof.
  unfold getTotalClaimCostForDisaster, calculateDisasterClaimDensity.
  destruct (List.filter
              (fun claim => Z.eqb (Claim.disaster_id claim) disasterId)
              sfcc2023Claims) as [|c rest] eqn:E; simpl.
  - split; [tauto|]. split; [|reflexivity]. intros _ claim Hin.
    apply Z.eqb_neq. now apply (proj1 (filter_nil_iff _ _) E).
  - split; [split; discriminate|]. split; [discriminate|].
    intros Hnone. exfalso.
    assert (In c (List.filter
                    (fun claim => Z.eqb (Claim.disaster_id claim) disasterId)
                    sfcc2023Claims)) as Hin by (rewrite E; now left).
    apply List.filter_In in Hin. destruct Hin as [Hin Hid].
    apply Z.eqb_eq in Hid. now apply (Hnone c).
Qed.

Lemma of_nat_positive n :
  (exists m e, Number.of_nat (S n) = S754_finite false m e)
  \/ Number.of_nat (S n) = S754_infinity false.
Proof.
  unfold Number.of_nat, Number.of_Z, binary_normalize.
  rewrite Nat2Z.inj_succ, <- Z.add_1_r.
  destruct (Z.of_nat n + 1)%Z as [|p|p] eqn:E; try lia.
  destruct (binary_round_pos false p 0) as [(m & e & H & _)|H];
    [unfold emin64; cbv; discriminate | left; eauto | now right].
Qed.

(** X12.  For a disaster with claims whose radius is zero,
    [calculateDisasterClaimDensity] divides by zero and returns
    [Infinity], neither [null] nor [NaN]. *)
Theorem X12_zero_radius_gives_infinity (sfcc2023Claims : list Claim.t)
    (sfcc2023Disasters : list Disaster.t) (disasterId : Z)
    (disaster : Disaster.t) (s : bool) :
  (exists claim, In claim sfcc2023Claims
                 /\ Claim.disaster_id claim = disasterId) ->
  List.find (fun d => Z.eqb (Disaster.id d) disasterId) sfcc2023Disasters
  = Some disaster ->
  Disaster.radius_miles disaster = S754_zero s ->
  calculateDisasterClaimDensity sfcc2023Claims sfcc2023Disasters disasterId
  = Some (S754_infinity false).
Proof.
  intros (claim & Hin & Hid) Hfind Hr. unfold calculateDisasterClaimDensity.
  rewrite Hfind. simpl. rewrite Hr.
  destruct (List.filter _ sfcc2023Claims) as [|c rest] eqn:E.
  { pose proof (proj1 (filter_nil_iff _ _) E claim Hin) as Hf.
    simpl in Hf. rewrite Hid, Z.eqb_refl in Hf. discriminate. }
  cbn [length Nat.eqb].
  destruct (of_nat_positive (length rest)) as [(m & e & ->)| ->];
    destruct s; reflexivity.
Qed.

Lemma X12_zero_radius_gives_infinity_witness :
  calculateDisasterClaimDensity density_claims
    [Disaster.mk 1 "Texas" (mkDate 0 2023) Number.zero] 1
  = Some (S754_infinity false).
Proof.
  eapply (X12_zero_radius_gives_infinity density_claims _ 1).
  - eexists. split; [left; reflexivity | reflexivity].
  - reflexivity.
  - reflexivity.
Defined.

(** ** The top three months: what the result depends on *)

Lemma fold_left_filter {A B} (f : A -> B -> A) (p : B -> bool) (l : list B) :
  (forall a x, p x = false -> f a x = a) ->
  forall a, fold_left f (List.filter p l) a = fold_left f l a.
Proof.
  intros Hskip. induction l as [|x l IH]; intros a; simpl; [reflexivity|].
  destruct (p x) eqn:E; simpl.
  - apply IH.
  - rewrite (Hskip a x E). apply IH.
Qed.

Lemma find_existsb_false {A} (p : A -> bool) (l : list A) :
  existsb p l = false -> List.find p l = None.
Proof.
  induction l as [|x l IH]; simpl; [reflexivity|].
  destruct (p x); simpl; [discriminate | exact IH].
Qed.

Lemma month_claim_costs_loaded claims disasters :
  month_claim_costs (List.filter (of_loaded_disaster disasters) claims)
    disasters
  = month_claim_costs claims disasters.
Proof.
  unfold month_claim_costs. apply fold_left_filter.
  intros o claim Hout. unfold add_claim.
  now rewrite (find_existsb_false _ _ Hout).
Qed.

(** X13.  Claims of a disaster id that no loaded disaster has have no
    effect on [getTopThreeMonthsWithHighestNumOfClaimsDesc], whatever
    their costs: leaving them out gives the same list. *)
Theorem X13_claims_of_unknown_disasters_are_ignored
    (sfcc2023Claims : list Claim.t) (sfcc2023Disasters : list Disaster.t) :
  getTopThreeMonthsWithHighestNumOfClaimsDesc
    (List.filter (of_loaded_disaster sfcc2023Disasters) sfcc2023Claims)
    sfcc2023Disasters
  = getTopThreeMonthsWithHighestNumOfClaimsDesc sfcc2023Claims
      sfcc2023Disasters.
Proof.
  unfold getTopThreeMonthsWithHighestNumOfClaimsDesc.
  now rewrite month_claim_costs_loaded.
Qed.





(** ** The claims of a handler *)



Lemma list_sum_indicator (k : Z) (ks : list Z) :
  List.NoDup ks -> In k ks ->
  list_sum (List.map (fun k' => if Z.eqb k k' then 1 else 0) ks) = 1.
Proof.
  induction ks as [|k0 ks IH]; simpl; intros Hnd Hin; [destruct Hin|].
  inversion Hnd as [|? ? Hout Hnd']; subst.
  destruct (Z.eqb_spec k k0) as [->|Hne].
  - f_equal. clear IH Hin Hnd.
    induction ks as [|k1 ks IH]; simpl; [reflexivity|].
    inversion Hnd' as [|? ? Hout1 Hnd1]; subst.
    destruct (Z.eqb_spec k0 k1) as [->|_]; [exfalso; apply Hout; now left|].
    apply IH; [|assumption]. intros H. apply Hout. now right.
  - destruct Hin as [->|Hin]; [congruence|]. now apply IH.
Qed.

Lemma list_sum_map_add {A} (f g : A -> nat) (l : list A) :
  list_sum (List.map (fun x => f x + g x) l)
  = list_sum (List.map f l) + list_sum (List.map g l).
Proof. induction l as [|x l IH]; simpl; lia. Qed.

(** X16.  The counts of [getNumClaimsForClaimHandlerId] over a list of
    handler ids without repetition that has the handler of every claim add
    up to the number of claims: every claim is counted for one handler. *)
Theorem X16_handlers_share_out_the_claims
    (claim_handler_assigned_id : Claim.t -> Z)
    (sfcc2023Claims : list Claim.t) (handlers : list Z) :
  List.NoDup handlers ->
  (forall claim, In claim sfcc2023Claims ->
     In (claim_handler_assigned_id claim) handlers) ->
  list_sum
    (List.map
       (getNumClaimsForClaimHandlerId claim_handler_assigned_id sfcc2023Claims)
       handlers)
  = length sfcc2023Claims.
Proof.
  intros Hnd. unfold getNumClaimsForClaimHandlerId.
  induction sfcc2023Claims as [|c claims IH]; intros Hall.
  - simpl. induction handlers as [|h hs IHh]; simpl; [reflexivity|].
    inversion Hnd; subst. now apply IHh.
  - transitivity
      (list_sum
         (List.map
            (fun h => if Z.eqb (claim_handler_assigned_id c) h then 1 else 0)
            handlers)
       + list_sum
           (List.map
              (fun h =>
                 length (List.filter
                           (fun claim =>
                              Z.eqb (claim_handler_assigned_id claim) h)
                           claims))
              handlers)).
    + rewrite <- list_sum_map_add. f_equal. apply List.map_ext. intros h.
      simpl. destruct (Z.eqb _ h); reflexivity.
    + rewrite list_sum_indicator, IH; auto.
      * intros. apply Hall. now right.
      * apply Hall. now left.
Qed.

Lemma X16_handlers_share_out_the_claims_witness :
  List.NoDup [100%Z; 200%Z]
  /\ getNumClaimsForClaimHandlerId sample_handler sample_claims 100 = 3
  /\ getNumClaimsForClaimHandlerId sample_handler sample_claims 200 = 5
  /\ list_sum
       (List.map (getNumClaimsForClaimHandlerId sample_handler sample_claims)
          [100%Z; 200%Z])
     = length sample_claims.
Proof.
  assert (List.NoDup [100%Z; 200%Z]) as Hnd.
  { repeat (apply List.NoDup_cons; [simpl; lia|]). constructor. }
  split; [exact Hnd|]. split; [reflexivity|]. split; [reflexivity|].
  apply (X16_handlers_share_out_the_claims sample_handler sample_claims
           [100%Z; 200%Z] Hnd).
  intros claim _. unfold sample_handler.
  destruct (Claim.id claim <=? 3)%Z; simpl; auto.
Defined.

(** ** Totals of well-formed costs are numbers *)

Local Open Scope Z_scope.

(** Reading a decimal numeral with a denominator of at most 1000 binary
    digits gives a finite number or an infinity of the sign asked. *)
Lemma nearest_finite (s : bool) (p den : positive) :
  Zpos (digits2_pos den) <= 1000 ->
  (exists m e, Number.nearest s p den = S754_finite s m e /\ emin64 <= e)
  \/ Number.nearest s p den = S754_infinity s.
Proof.
  intros Hden. unfold Number.nearest, SFdiv_core_binary.
  cbn [Zdigits2].
  pose proof (digits2_pos_bounds p) as [Hp _].
  pose proof (digits2_pos_bounds den) as [_ Hd].
  set (d1 := Zpos (digits2_pos p)) in *.
  set (d2 := Zpos (digits2_pos den)) in *.
  assert (0 < d1) by (unfold d1; lia).
  assert (0 < d2) by (unfold d2; lia).
  replace (d1 + 0 - (d2 + 0)) with (d1 - d2) by lia.
  replace (fexp Number.prec Number.emax (d1 - d2)) with (d1 - d2 - 53)
    by (unfold fexp, SpecFloat.emin, Number.prec, Number.emax; lia).
  replace (0 - 0) with 0 by lia.
  set (e' := Z.min (d1 - d2 - 53) 0).
  assert (emin64 <= e') as He'
    by (unfold emin64, SpecFloat.emin, Number.prec, Number.emax, e'; lia).
  set (m' := match 0 - e' with
             | 0 => Zpos p
             | Zpos _ => Z.shiftl (Zpos p) (0 - e')
             | Zneg _ => 0
             end).
  assert (Zpos den <= m') as Hm'.
  { assert (2 ^ d2 <= 2 ^ (d1 - 1 - e')) as Hpow
      by (apply Z.pow_le_mono_r; unfold e'; lia).
    subst m'. destruct (0 - e') as [|q|q] eqn:Es.
    - replace (d1 - 1 - e') with (d1 - 1) in Hpow by lia. lia.
    - rewrite Z.shiftl_mul_pow2 by lia. rewrite <- Es.
      assert (2 ^ (d1 - 1) * 2 ^ (0 - e') <= Zpos p * 2 ^ (0 - e')) as Hmul
        by (apply Z.mul_le_mono_nonneg_r; [apply Z.pow_nonneg|]; lia).
      rewrite <- Z.pow_add_r in Hmul by lia.
      replace (d1 - 1 + (0 - e')) with (d1 - 1 - e') in Hmul by lia. lia.
    - unfold e' in Es. lia. }
  pose proof (Z.div_str_pos m' (Zpos den) ltac:(lia)) as Hq.
  unfold Z.div in Hq.
  destruct (Z.div_eucl m' (Zpos den)) as [q r].
  apply binary_round_aux_pos; assumption.
Qed.

Lemma round_to_2_sum_ok x : sum_ok x -> sum_ok (Number.round_to 2 x).
Proof.
  destruct x as [sx|sx| |sx m e]; cbn [sum_ok]; try tauto.
  - now intros ->.
  - intros [-> He]. unfold Number.round_to, Number.toFixed.
    destruct (_ <=? _); cbn [Number.parseFloat sum_ok]; [now split|].
    unfold Number.decimal.
    destruct (_ / _) as [|p|p]; cbn [sum_ok]; try reflexivity.
    destruct (nearest_finite false p (Z.to_pos (10 ^ Z.of_nat 2)))
      as [(m' & e' & -> & He')| ->];
      [vm_compute; discriminate | now split | reflexivity].
Qed.

Local Close Scope Z_scope.

Lemma sum_ok_not_negative y : sum_ok y -> not_negative y.
Proof. destruct y; simpl; tauto. Qed.

Lemma Forall_filter_cost_ok (p : Claim.t -> bool) claims :
  Forall (fun claim => cost_ok (Claim.estimate_cost claim)) claims ->
  Forall (fun claim => cost_ok (Claim.estimate_cost claim))
    (List.filter p claims).
Proof.
  intros Hok. apply List.Forall_forall. intros x Hx.
  apply List.filter_In in Hx. destruct Hx as [Hx _].
  now apply (proj1 (List.Forall_forall _ _) Hok).
Qed.

(** X17.  When every estimate cost is a valid number that is not negative,
    the total that [getTotalClaimCostForDisaster] returns and every total
    in the map of [buildMapOfAgentsToTotalClaimCost] is a number without a
    minus sign, never [NaN]: [null] is the only sign of absence. *)
Theorem X17_totals_are_numbers (sfcc2023Agents : list Agent.t)
    (sfcc2023Claims : list Claim.t) :
  Forall (fun claim => cost_ok (Claim.estimate_cost claim)) sfcc2023Claims ->
  (forall disasterId y,
     getTotalClaimCostForDisaster sfcc2023Claims disasterId = Some y ->
     not_negative y)
  /\ (forall (k : Z) y,
        buildMapOfAgentsToTotalClaimCost sfcc2023Agents sfcc2023Claims !! k
        = Some y ->
        not_negative y).
Proof.
  intros Hok. split.
  - intros disasterId y. unfold getTotalClaimCostForDisaster.
    destruct (Nat.eqb _ 0); [discriminate|]. intros [= <-].
    apply sum_ok_not_negative, round_to_2_sum_ok, total_cost_sum_ok.
    now apply Forall_filter_cost_ok.
  - intros k y. rewrite buildMap_lookup.
    destruct (existsb _ sfcc2023Agents); [|discriminate]. intros [= <-].
    apply sum_ok_not_negative, round_to_2_sum_ok, total_cost_sum_ok.
    now apply Forall_filter_cost_ok.
Qed.

Lemma X17_totals_are_numbers_witness :
  Forall (fun claim => cost_ok (Claim.estimate_cost claim)) sample_claims
  /\ not_negative (Number.of_decimal 1501 2).
Proof.
  assert (Forall (fun claim => cost_ok (Claim.estimate_cost claim))
            sample_claims) as Hok by (repeat constructor).
  split; [exact Hok|].
  apply (proj1 (X17_totals_are_numbers sample_agents sample_claims Hok) 1%Z).
  vm_compute. reflexivity.
Defined.

(** ** An agent without claims, seen by two queries *)

(** X18.  For a loaded agent and a minimum severity within the range, when
    [getNumOfOpenClaimsForAgentAndSeverity] returns [null] the map of
    [buildMapOfAgentsToTotalClaimCost] holds the total 0 for the agent. *)
Theorem X18_null_count_means_zero_total (sfcc2023Agents : list Agent.t)
    (sfcc2023Claims : list Claim.t) (agent : Agent.t)
    (minSeverityRating : Z) :
  In agent sfcc2023Agents ->
  (0 < minSeverityRating <= 10)%Z ->
  getNumOfOpenClaimsForAgentAndSeverity sfcc2023Claims (Agent.id agent)
    minSeverityRating = None ->
  buildMapOfAgentsToTotalClaimCost sfcc2023Agents sfcc2023Claims
    !! Agent.id agent = Some Number.zero.
Proof.
  intros Hin Hr. rewrite open_claims_in_range by assumption.
  destruct (Nat.eqb_spec
              (count_if (fun claim =>
                           Z.eqb (Claim.agent_assigned_id claim)
                             (Agent.id agent)) sfcc2023Claims) 0)
    as [E|_]; [intros _ | discriminate].
  rewrite buildMap_lookup.
  assert (existsb (fun a => Z.eqb (Agent.id a) (Agent.id agent))
            sfcc2023Agents = true) as ->
    by (apply existsb_agent_id; now exists agent).
  unfold count_if in E.
  destruct (List.filter _ sfcc2023Claims); [reflexivity | discriminate].
Qed.

Lemma X18_null_count_means_zero_total_witness :
  getNumOfOpenClaimsForAgentAndSeverity sample_claims 13 5 = None
  /\ buildMapOfAgentsToTotalClaimCost sample_agents sample_claims !! 13%Z
     = Some Number.zero.
Proof.
  split; [reflexivity|].
  apply (X18_null_count_means_zero_total sample_agents sample_claims
           (Agent.mk 13 "Utah" None) 5).
  - simpl. tauto.
  - lia.
  - reflexivity.
Defined.
